(** * Opening-range-breakout evaluator (scripts/orb_nq.py)

    A shallow embedding of the script and the properties of its session
    state machine.

    Conventions of the embedding.
    - Prices are Python floats in the script.  They are modelled as exact
      rationals [Q]; comparisons are the boolean ones the script performs,
      [max]/[min] are Python's two-argument builtins and [round(x, 2)] is
      rounding half to even on the second decimal.
    - A [datetime] is a number of seconds on the exchange-local wall
      clock, counted from a Monday 00:00, so that the weekday and the
      calendar day are arithmetic on it.
    - The text of a date ([strftime('%Y-%m-%d')]) is modelled by the day
      number; ISO dates have a fixed width and order the same way.
    - Reading [None] where the script needs a float raises [TypeError];
      the loop body is therefore written in an error monad. *)

From Stdlib Require Import ZArith QArith Qround Lqa Lia List String Bool Sorted.
From stdpp Require Import gmap.
Import ListNotations.

Local Open Scope Z_scope.

(** ** Python-level helpers *)

Inductive result (A : Type) : Type :=
| Ok (a : A)
| TypeError.
Arguments Ok {A} a.
Arguments TypeError {A}.

#[global] Instance result_ret : MRet result := fun A a => Ok a.
#[global] Instance result_bind : MBind result := fun A B f m =>
  match m with
  | Ok a => f a
  | TypeError => TypeError
  end.

(** [float(x)] and every arithmetic use of an [Optional[float]] field. *)
Definition as_float (x : option Q) : result Q :=
  match x with
  | Some q => Ok q
  | None => TypeError
  end.

Definition Qgeb (a b : Q) : bool := Qle_bool b a.
Definition Qleb (a b : Q) : bool := Qle_bool a b.
Definition Qgtb (a b : Q) : bool := negb (Qle_bool a b).
Definition Qltb (a b : Q) : bool := negb (Qle_bool b a).

(** Python's [max(a, b)] keeps [a] unless [b > a]; [min(a, b)] keeps [a]
    unless [b < a]. *)
Definition pymax (a b : Q) : Q := if Qgtb b a then b else a.
Definition pymin (a b : Q) : Q := if Qltb b a then b else a.

Definition round_half_even (x : Q) : Z :=
  let n := Qfloor x in
  match Qcompare (x - inject_Z n) (1 # 2) with
  | Lt => n
  | Gt => n + 1
  | Eq => if Z.even n then n else n + 1
  end.

(** [round(x, 2)] *)
Definition round2 (x : Q) : Q := (inject_Z (round_half_even (x * 100)) / 100)%Q.

(** ** Config *)

Definition POINT_VALUE : Q := 20.
Definition OPENING_RANGE_MINUTES : Z := 15.
Definition TRADING_WINDOW_MINUTES : Z := 390.
Definition OFFSET_POINTS : Q := 2.
Definition TRAIL_DISTANCE_POINTS : Q := 15.
Definition TAKE_PROFIT_POINTS : Q := 20.
Definition BREAKEVEN_TRIGGER_POINTS : Q := 15.

(** ** Time *)

Definition datetime : Type := Z.

Definition weekday (d : datetime) : Z := (d / 86400) mod 7.

(** [d.strftime('%Y-%m-%d')] *)
Definition strftime_date (d : datetime) : Z := d / 86400.

(** [d.replace(hour=h, minute=m, second=0, microsecond=0)] *)
Definition replace_time (d : datetime) (h m : Z) : datetime :=
  d / 86400 * 86400 + h * 3600 + m * 60.

Definition timedelta_minutes (n : Z) : Z := n * 60.

(** The text kept in a timestamp field: the ISO rendering of an instant,
    which [datetime.fromisoformat] reads back, or any other text, on which
    it raises [ValueError]. *)
Inductive tstext : Type :=
| IsoText (t : datetime)
| OtherText (s : string).

Definition isoformat (t : datetime) : tstext := IsoText t.

Definition fromisoformat (x : tstext) : option datetime :=
  match x with
  | IsoText t => Some t
  | OtherText _ => None
  end.

(** Truth value of a [str]: only the empty text is false. *)
Definition nonempty (x : tstext) : bool :=
  match x with
  | IsoText _ => true
  | OtherText s => negb (String.eqb s "")
  end.

Record Times : Type := {
  t_open : datetime;
  t_orb_end : datetime;
  t_trade_start : datetime;
  t_trade_end : datetime
}.

Definition session_times (d : datetime) : Times :=
  let session_open := replace_time d 9 30 in
  let session_close := replace_time d 16 0 in
  let orb_end := session_open + timedelta_minutes OPENING_RANGE_MINUTES in
  let trade_start := orb_end in
  let trade_end := session_open + timedelta_minutes TRADING_WINDOW_MINUTES in
  {| t_open := session_open;
     t_orb_end := orb_end;
     t_trade_start := trade_start;
     t_trade_end := Z.min trade_end session_close |}.

Definition within (dt a b : datetime) : bool := (a <=? dt) && (dt <=? b).

(** ** Data *)

(** One row of the minute data frame, with its index. *)
Record Candle : Type := {
  c_ts : datetime;
  c_Open : Q;
  c_High : Q;
  c_Low : Q;
  c_Close : Q
}.

Record TradeState : Type := {
  session_date : Z;
  trade_executed : bool;
  trade_open : bool;
  direction : option string;
  entry_time : option tstext;
  entry_price : option Q;
  stop_price : option Q;
  watermark_price : option Q;
  be_triggered : bool;
  last_processed_ts : option tstext
}.

(** [TradeState(session_date=...)] *)
Definition fresh_state (date : Z) : TradeState :=
  {| session_date := date;
     trade_executed := false;
     trade_open := false;
     direction := None;
     entry_time := None;
     entry_price := None;
     stop_price := None;
     watermark_price := None;
     be_triggered := false;
     last_processed_ts := None |}.

(** [row_out] *)
Record TradeRow : Type := {
  r_date : Z;
  r_direction : string;
  r_entry_time : option tstext;
  r_entry_price : Q;
  r_exit_time : tstext;
  r_exit_price : Q;
  r_pnl_points : Q;
  r_pnl_usd : Q;
  r_exit_reason : string
}.

(** Field assignments on the state object. *)
Definition set_last_processed_ts (st : TradeState) (x : tstext) : TradeState :=
  {| session_date := session_date st;
     trade_executed := trade_executed st;
     trade_open := trade_open st;
     direction := direction st;
     entry_time := entry_time st;
     entry_price := entry_price st;
     stop_price := stop_price st;
     watermark_price := watermark_price st;
     be_triggered := be_triggered st;
     last_processed_ts := Some x |}.

(** The eight assignments of an entry (lines 263-270 and 273-280). *)
Definition open_trade (st : TradeState) (dir : string) (ts : datetime)
    (c stop : Q) : TradeState :=
  {| session_date := session_date st;
     trade_executed := true;
     trade_open := true;
     direction := Some dir;
     entry_time := Some (isoformat ts);
     entry_price := Some c;
     stop_price := Some stop;
     watermark_price := Some c;
     be_triggered := false;
     last_processed_ts := last_processed_ts st |}.

(** The watermark, stop and break-even flag after the trailing update. *)
Definition set_trailing (st : TradeState) (wm stop : Q) (be : bool) : TradeState :=
  {| session_date := session_date st;
     trade_executed := trade_executed st;
     trade_open := trade_open st;
     direction := direction st;
     entry_time := entry_time st;
     entry_price := entry_price st;
     stop_price := Some stop;
     watermark_price := Some wm;
     be_triggered := be;
     last_processed_ts := last_processed_ts st |}.

(** [st.trade_open = False; st.direction = None] *)
Definition close_trade (st : TradeState) : TradeState :=
  {| session_date := session_date st;
     trade_executed := trade_executed st;
     trade_open := false;
     direction := None;
     entry_time := entry_time st;
     entry_price := entry_price st;
     stop_price := stop_price st;
     watermark_price := watermark_price st;
     be_triggered := be_triggered st;
     last_processed_ts := last_processed_ts st |}.

(** ** The loop body of [main] *)

(** Entry logic (lines 259-280). *)
Definition entry_logic (times : Times) (long_level short_level : Q)
    (st : TradeState) (cd : Candle) : TradeState :=
  let ts := c_ts cd in
  let h := c_High cd in
  let l := c_Low cd in
  let c := c_Close cd in
  if negb (trade_open st) && negb (trade_executed st) && (t_trade_start times <=? ts)
  then
    if Qgeb h long_level then
      (* max(c - TRAIL_DISTANCE_POINTS, float('-inf')) is its first argument *)
      open_trade st "long" ts c (c - TRAIL_DISTANCE_POINTS)%Q
    else if Qleb l short_level then
      (* min(c + TRAIL_DISTANCE_POINTS, float('inf')) is its first argument *)
      open_trade st "short" ts c (c + TRAIL_DISTANCE_POINTS)%Q
    else st
  else st.

(** The exit checks of a long (lines 299-310): price and reason. *)
Definition exit_check_long (times : Times) (entry stop : Q) (cd : Candle)
    : option (Q * string) :=
  let tp_price := (entry + TAKE_PROFIT_POINTS)%Q in
  if Qgeb (c_High cd) tp_price then Some (tp_price, "TP"%string)
  else if Qleb (c_Low cd) stop then Some (stop, "TrailingStop"%string)
  else if t_trade_end times <=? c_ts cd then Some (c_Close cd, "EOD"%string)
  else None.

(** The exit checks of a short (lines 339-350). *)
Definition exit_check_short (times : Times) (entry stop : Q) (cd : Candle)
    : option (Q * string) :=
  let tp_price := (entry - TAKE_PROFIT_POINTS)%Q in
  if Qleb (c_Low cd) tp_price then Some (tp_price, "TP"%string)
  else if Qgeb (c_High cd) stop then Some (stop, "TrailingStop"%string)
  else if t_trade_end times <=? c_ts cd then Some (c_Close cd, "EOD"%string)
  else None.

Definition make_row (st : TradeState) (dir : string) (entry : Q) (ts : datetime)
    (exit_price pnl_points : Q) (exit_reason : string) : TradeRow :=
  let pnl_usd := (pnl_points * POINT_VALUE)%Q in
  {| r_date := session_date st;
     r_direction := dir;
     r_entry_time := entry_time st;
     r_entry_price := round2 entry;
     r_exit_time := isoformat ts;
     r_exit_price := round2 exit_price;
     r_pnl_points := round2 pnl_points;
     r_pnl_usd := round2 pnl_usd;
     r_exit_reason := exit_reason |}.

(** Watermark, trailing stop and break-even of a long (lines 288-297). *)
Definition watermark_long (h wm0 : Q) : Q := if Qgtb h wm0 then h else wm0.

Definition be_fires_long (be : bool) (wm entry : Q) : bool :=
  negb be && Qgeb (wm - entry)%Q BREAKEVEN_TRIGGER_POINTS.

Definition stop_long (be : bool) (wm entry stop0 : Q) : Q :=
  let new_trail := (wm - TRAIL_DISTANCE_POINTS)%Q in
  let stop1 := pymax stop0 new_trail in
  if be_fires_long be wm entry then pymax stop1 entry else stop1.

(** The same for a short (lines 332-338). *)
Definition watermark_short (l wm0 : Q) : Q := if Qltb l wm0 then l else wm0.

Definition be_fires_short (be : bool) (wm entry : Q) : bool :=
  negb be && Qgeb (entry - wm)%Q BREAKEVEN_TRIGGER_POINTS.

Definition stop_short (be : bool) (wm entry stop0 : Q) : Q :=
  let new_trail := (wm + TRAIL_DISTANCE_POINTS)%Q in
  let stop1 := pymin stop0 new_trail in
  if be_fires_short be wm entry then pymin stop1 entry else stop1.

(** [if exit_reason: ...] (lines 312-329 and 352-369); [pnl_points] is
    the difference the branch takes. *)
Definition settle (st : TradeState) (dir : string) (entry : Q) (ts : datetime)
    (exit : option (Q * string)) (pnl_points : Q -> Q)
    : TradeState * list TradeRow :=
  match exit with
  | Some (exit_price, exit_reason) =>
    (close_trade st,
     [make_row st dir entry ts exit_price (pnl_points exit_price) exit_reason])
  | None => (st, [])
  end.

(** Manage open trade (lines 283-369), entered when [st.trade_open]. *)
Definition manage_open_trade (times : Times) (st : TradeState) (cd : Candle)
    : result (TradeState * list TradeRow) :=
  let ts := c_ts cd in
  let h := c_High cd in
  let l := c_Low cd in
  entry ← as_float (entry_price st);
  match direction st with
  | Some dir =>
    if String.eqb dir "long" then
      wm0 ← as_float (watermark_price st);
      stop0 ← as_float (stop_price st);
      let wm := watermark_long h wm0 in
      let stop := stop_long (be_triggered st) wm entry stop0 in
      let be := if be_fires_long (be_triggered st) wm entry then true
                else be_triggered st in
      let st1 := set_trailing st wm stop be in
      Ok (settle st1 dir entry ts (exit_check_long times entry stop cd)
            (fun exit_price => exit_price - entry)%Q)
    else if String.eqb dir "short" then
      wm0 ← as_float (watermark_price st);
      stop0 ← as_float (stop_price st);
      let wm := watermark_short l wm0 in
      let stop := stop_short (be_triggered st) wm entry stop0 in
      let be := if be_fires_short (be_triggered st) wm entry then true
                else be_triggered st in
      let st1 := set_trailing st wm stop be in
      Ok (settle st1 dir entry ts (exit_check_short times entry stop cd)
            (fun exit_price => entry - exit_price)%Q)
    else Ok (st, [])
  | None => Ok (st, [])
  end.

(** One iteration of [for ts, row in candles.iterrows()] (lines 250-371):
    the new state and the rows handed to [append_trade_log] and
    [update_summary]. *)
Definition process_candle (times : Times) (long_level short_level : Q)
    (st : TradeState) (cd : Candle) : result (TradeState * list TradeRow) :=
  let ts := c_ts cd in
  let in_window :=
    within ts (t_trade_start times) (t_trade_end times)
    || (trade_open st && (ts <=? t_trade_end times)) in
  if negb in_window then Ok (set_last_processed_ts st (isoformat ts), [])
  else
    let st1 := entry_logic times long_level short_level st cd in
    '(st2, out) ← (if trade_open st1 then manage_open_trade times st1 cd
                   else Ok (st1, []));
    Ok (set_last_processed_ts st2 (isoformat ts), out).

(** The whole [for] loop. *)
Fixpoint process_candles (times : Times) (long_level short_level : Q)
    (st : TradeState) (candles : list Candle)
    : result (TradeState * list TradeRow) :=
  match candles with
  | [] => Ok (st, [])
  | cd :: rest =>
    '(st1, out1) ← process_candle times long_level short_level st cd;
    '(st2, out2) ← process_candles times long_level short_level st1 rest;
    Ok (st2, out1 ++ out2)
  end.

(** ** Opening range and candle selection *)

(** [Series.max()] and [Series.min()] of a non-empty column. *)
Definition col_max (x : Q) (xs : list Q) : Q := fold_left pymax xs x.
Definition col_min (x : Q) (xs : list Q) : Q := fold_left pymin xs x.

Definition compute_opening_range (df : list Candle) (open_ts orb_end : datetime)
    : option (Q * Q) :=
  let orb := List.filter (fun cd => (open_ts <=? c_ts cd) && (c_ts cd <? orb_end)) df in
  match orb with
  | [] => None
  | cd :: rest =>
    Some (col_max (c_High cd) (map c_High rest),
          col_min (c_Low cd) (map c_Low rest))
  end.

(** [candles = today_df.loc[process_mask]] (lines 234-247). *)
Definition select_candles (times : Times) (st : TradeState)
    (today_df : list Candle) : list Candle :=
  let from_open := List.filter (fun cd => t_open times <=? c_ts cd) today_df in
  match last_processed_ts st with
  | Some x =>
    if nonempty x then
      match fromisoformat x with
      | Some last_ts => List.filter (fun cd => last_ts <? c_ts cd) today_df
      | None => from_open
      end
    else from_open
  | None => from_open
  end.

(** What one call of [main] does to the loaded state, and the rows it
    emits, once the data frame of today is at hand (lines 215-371). *)
Definition advance (times : Times) (st : TradeState) (today_df : list Candle)
    : result (TradeState * list TradeRow) :=
  match compute_opening_range today_df (t_open times) (t_orb_end times) with
  | None => Ok (st, [])
  | Some (orb_high, orb_low) =>
    let long_level := (orb_high + OFFSET_POINTS)%Q in
    let short_level := (orb_low - OFFSET_POINTS)%Q in
    process_candles times long_level short_level st
      (select_candles times st today_df)
  end.

(** ** Rolling summary *)

Record SummaryRow : Type := {
  s_date : Z;
  s_direction : string;
  s_entry_time : option tstext;
  s_entry_price : Q;
  s_exit_time : tstext;
  s_exit_price : Q;
  s_pnl_points : Q;
  s_pnl_usd : Q;
  s_win : Z
}.

Record Summary : Type := {
  last_10 : list SummaryRow;
  winrate : option Q;
  total_pnl_points : Q;
  total_pnl_usd : Q
}.

(** The single row of [new_df]. *)
Definition new_summary_row (row : TradeRow) : SummaryRow :=
  {| s_date := r_date row;
     s_direction := r_direction row;
     s_entry_time := r_entry_time row;
     s_entry_price := r_entry_price row;
     s_exit_time := r_exit_time row;
     s_exit_price := r_exit_price row;
     s_pnl_points := r_pnl_points row;
     s_pnl_usd := r_pnl_usd row;
     s_win := if Qgtb (r_pnl_points row) 0 then 1 else 0 |}.

(** [sort_values("date")], as a stable insertion sort; nothing proved
    below depends on the order it gives to rows of the same date. *)
Fixpoint insert_by_date (r : SummaryRow) (l : list SummaryRow) : list SummaryRow :=
  match l with
  | [] => [r]
  | x :: rest =>
    if s_date x <=? s_date r then x :: insert_by_date r rest else r :: x :: rest
  end.

Definition sort_by_date (l : list SummaryRow) : list SummaryRow :=
  fold_left (fun acc r => insert_by_date r acc) l [].

(** [drop_duplicates("date", keep="last")] *)
Fixpoint drop_duplicates_last (l : list SummaryRow) : list SummaryRow :=
  match l with
  | [] => []
  | x :: rest =>
    if existsb (fun y => s_date y =? s_date x) rest
    then drop_duplicates_last rest
    else x :: drop_duplicates_last rest
  end.

(** [cur.tail(n)] *)
Definition tail_rows (n : nat) (l : list SummaryRow) : list SummaryRow :=
  skipn (length l - n)%nat l.

Definition Qsum (l : list Q) : Q := fold_left Qplus l 0%Q.

(** The frame written to the summary CSV (lines 155-168); [cur] is the
    frame read back from the file, when there is one. *)
Definition summary_frame (cur : option (list SummaryRow)) (row : TradeRow)
    : list SummaryRow :=
  let new_df := [new_summary_row row] in
  let cur1 := match cur with
              | Some rows => rows ++ new_df
              | None => new_df
              end in
  let cur2 := drop_duplicates_last (sort_by_date cur1) in
  if (10 <? length cur2)%nat then tail_rows 10 cur2 else cur2.

(** The JSON summary (lines 171-176). *)
Definition summary_of (cur : list SummaryRow) : Summary :=
  let n := length cur in
  {| last_10 := cur;
     winrate := if (0 <? n)%nat
                then Some (Qsum (map (fun r => inject_Z (s_win r)) cur)
                           / inject_Z (Z.of_nat n))%Q
                else None;
     total_pnl_points := if (0 <? n)%nat then Qsum (map s_pnl_points cur) else 0%Q;
     total_pnl_usd := if (0 <? n)%nat then Qsum (map s_pnl_usd cur) else 0%Q |}.

(** ** Files *)

(** The summary CSV as [pd.read_csv] finds it. *)
Inductive CsvFile : Type :=
| Rows (rows : list SummaryRow)
| Unreadable.

Inductive TradeView : Type :=
| OpenTrade (dir : option string) (entry_time : option tstext) (entry_price : Q)
    (stop_price watermark_price : option Q) (be_triggered : bool)
    (* [None] stands for nan *)
    (unrealized_pnl_points unrealized_pnl_usd : option Q)
| NoOpenTrade (trade_executed : bool).

(** The payloads of [write_latest]. *)
Inductive Latest : Type :=
| StatusOnly (status reason : string) (now_et : datetime)
| PreOrb (status : string) (now_et : datetime) (session_date : Z)
    (session_open orb_end : datetime)
| Active (status : string) (now_et : datetime) (session_date : Z)
    (session_open orb_end trade_window_end : datetime)
    (high low long_level short_level : Q)
    (trade : TradeView) (summary : option Summary).

Definition status_of (p : Latest) : string :=
  match p with
  | StatusOnly s _ _ => s
  | PreOrb s _ _ _ _ => s
  | Active s _ _ _ _ _ _ _ _ _ _ _ => s
  end.

Record Intraday : Type := {
  i_date : Z;
  i_session_open : datetime;
  i_session_close : datetime;
  i_candles : list Candle
}.

(** The reports directory and the files the script keeps in it; the state
    files and the trade logs are keyed by the date in their name. *)
Record Files : Type := {
  reports_dir : bool;
  latest_json : option Latest;
  summary_csv : option CsvFile;
  summary_json : option Summary;
  intraday_json : option Intraday;
  state_files : gmap Z TradeState;
  trade_logs : gmap Z (list TradeRow)
}.

Definition ensure_dirs (fs : Files) : Files :=
  {| reports_dir := true;
     latest_json := latest_json fs;
     summary_csv := summary_csv fs;
     summary_json := summary_json fs;
     intraday_json := intraday_json fs;
     state_files := state_files fs;
     trade_logs := trade_logs fs |}.

Definition write_latest (payload : Latest) (fs : Files) : Files :=
  {| reports_dir := reports_dir fs;
     latest_json := Some payload;
     summary_csv := summary_csv fs;
     summary_json := summary_json fs;
     intraday_json := intraday_json fs;
     state_files := state_files fs;
     trade_logs := trade_logs fs |}.

Definition load_state (d : datetime) (fs : Files) : TradeState :=
  match state_files fs !! strftime_date d with
  | Some st => st
  | None => fresh_state (strftime_date d)
  end.

Definition save_state (st : TradeState) (d : datetime) (fs : Files) : Files :=
  {| reports_dir := reports_dir fs;
     latest_json := latest_json fs;
     summary_csv := summary_csv fs;
     summary_json := summary_json fs;
     intraday_json := intraday_json fs;
     state_files := <[strftime_date d := st]> (state_files fs);
     trade_logs := trade_logs fs |}.

Definition append_trade_log (d : datetime) (row : TradeRow) (fs : Files) : Files :=
  let old := match trade_logs fs !! strftime_date d with
             | Some rows => rows
             | None => []
             end in
  {| reports_dir := reports_dir fs;
     latest_json := latest_json fs;
     summary_csv := summary_csv fs;
     summary_json := summary_json fs;
     intraday_json := intraday_json fs;
     state_files := state_files fs;
     trade_logs := <[strftime_date d := old ++ [row]]> (trade_logs fs) |}.

Definition update_summary (row : TradeRow) (fs : Files) : Files :=
  let cur := match summary_csv fs with
             | Some (Rows rows) => Some rows
             | Some Unreadable => Some []
             | None => None
             end in
  let frame := summary_frame cur row in
  {| reports_dir := reports_dir fs;
     latest_json := latest_json fs;
     summary_csv := Some (Rows frame);
     summary_json := Some (summary_of frame);
     intraday_json := intraday_json fs;
     state_files := state_files fs;
     trade_logs := trade_logs fs |}.

Definition write_intraday (payload : Intraday) (fs : Files) : Files :=
  {| reports_dir := reports_dir fs;
     latest_json := latest_json fs;
     summary_csv := summary_csv fs;
     summary_json := summary_json fs;
     intraday_json := Some payload;
     state_files := state_files fs;
     trade_logs := trade_logs fs |}.

(** The two writes that follow every exit (lines 326-327 and 366-367). *)
Definition record_trades (now : datetime) (out : list TradeRow) (fs : Files) : Files :=
  fold_left (fun acc row => update_summary row (append_trade_log now row acc)) out fs.

(** ** [main] *)

(** The open-trade detail of the snapshot (lines 396-415). *)
Definition trade_view (st : TradeState) (today_df : list Candle) : result TradeView :=
  if trade_open st then
    let last_close := c_Close <$> last today_df in
    entry ← as_float (entry_price st);
    let pnl_points :=
      match direction st with
      | Some dir =>
        if String.eqb dir "long" then (fun x => x - entry)%Q <$> last_close
        else (fun x => entry - x)%Q <$> last_close
      | None => (fun x => entry - x)%Q <$> last_close
      end in
    Ok (OpenTrade (direction st) (entry_time st) (round2 entry)
          (round2 <$> stop_price st) (round2 <$> watermark_price st)
          (be_triggered st)
          (round2 <$> pnl_points)
          ((fun p => round2 (p * POINT_VALUE)) <$> pnl_points))
  else Ok (NoOpenTrade (trade_executed st)).

Definition round_candle (cd : Candle) : Candle :=
  {| c_ts := c_ts cd;
     c_Open := round2 (c_Open cd);
     c_High := round2 (c_High cd);
     c_Low := round2 (c_Low cd);
     c_Close := round2 (c_Close cd) |}.

(** The chart export (lines 426-446). *)
Definition intraday_payload (now : datetime) (times : Times)
    (today_df : list Candle) : Intraday :=
  let upto := Z.min now (t_trade_end times) in
  let view := List.filter (fun cd => (t_open times <=? c_ts cd) && (c_ts cd <=? upto))
                today_df in
  {| i_date := strftime_date now;
     i_session_open := t_open times;
     i_session_close := t_trade_end times;
     i_candles := map round_candle view |}.

(** One run of the script: [now] is the clock reading, [df] the frame
    [fetch_intraday_1m] returned, [fs0] the files it finds. *)
Definition main (now : datetime) (df : list Candle) (fs0 : Files) : result Files :=
  let fs := ensure_dirs fs0 in
  let times := session_times now in
  if 4 <? weekday now then
    Ok (write_latest (StatusOnly "inactive" "weekend" now) fs)
  else
    match df with
    | [] => Ok (write_latest (StatusOnly "error" "no_data" now) fs)
    | _ :: _ =>
      let today_start := replace_time now 0 0 in
      let today_df := List.filter (fun cd => today_start <=? c_ts cd) df in
      let st := load_state now fs in
      match compute_opening_range today_df (t_open times) (t_orb_end times) with
      | None =>
        Ok (save_state st now
              (write_latest
                 (PreOrb "pre_orb" now (strftime_date now)
                    (t_open times) (t_orb_end times)) fs))
      | Some (orb_high, orb_low) =>
        let long_level := (orb_high + OFFSET_POINTS)%Q in
        let short_level := (orb_low - OFFSET_POINTS)%Q in
        '(st1, out) ← process_candles times long_level short_level st
                        (select_candles times st today_df);
        let fs1 := record_trades now out fs in
        trade ← trade_view st1 today_df;
        let latest :=
          Active "active" now (strftime_date now)
            (t_open times) (t_orb_end times) (t_trade_end times)
            (round2 orb_high) (round2 orb_low)
            (round2 long_level) (round2 short_level)
            trade (summary_json fs1) in
        let fs2 := save_state st1 now (write_latest latest fs1) in
        Ok (write_intraday (intraday_payload now times today_df) fs2)
      end
    end.

(** ** Sequences of processed candles *)

(** One execution of the loop body, with the session times and the
    breakout levels of the call of [main] it belongs to. *)
Record Tick : Type := {
  k_times : Times;
  k_long_level : Q;
  k_short_level : Q;
  k_candle : Candle
}.

Definition tick (st : TradeState) (k : Tick) : result (TradeState * list TradeRow) :=
  process_candle (k_times k) (k_long_level k) (k_short_level k) st (k_candle k).

(** Any sequence of executions of the loop body, over any number of
    calls, and all the rows it emits. *)
Fixpoint run (st : TradeState) (ticks : list Tick)
    : result (TradeState * list TradeRow) :=
  match ticks with
  | [] => Ok (st, [])
  | k :: rest =>
    '(st1, out1) ← tick st k;
    '(st2, out2) ← run st1 rest;
    Ok (st2, out1 ++ out2)
  end.


(** A sequence of calls of the script on one session date, each with the
    frame of today it fetched. *)
Fixpoint session (times : Times) (st : TradeState) (calls : list (list Candle))
    : result (TradeState * list TradeRow) :=
  match calls with
  | [] => Ok (st, [])
  | today_df :: rest =>
    '(st1, out1) ← advance times st today_df;
    '(st2, out2) ← session times st1 rest;
    Ok (st2, out1 ++ out2)
  end.

(** An entry happened between two consecutive states. *)
Definition entered (st st' : TradeState) : bool :=
  negb (trade_executed st) && trade_executed st'.




(** States reached from a fresh one by processing candles. *)
Inductive reachable : TradeState -> Prop :=
| reach_fresh (date : Z) : reachable (fresh_state date)
| reach_tick (st st' : TradeState) (k : Tick) (out : list TradeRow) :
    reachable st -> tick st k = Ok (st', out) -> reachable st'.

(** What holds of every reachable state. *)
Record consistent (st : TradeState) : Prop := {
  open_executed : trade_open st = true -> trade_executed st = true;
  open_direction : trade_open st = true ->
    direction st = Some "long"%string \/ direction st = Some "short"%string;
  closed_direction : trade_open st = false -> direction st = None;
  executed_entry_time : trade_executed st = true <-> is_Some (entry_time st);
  executed_entry_price : trade_executed st = true <-> is_Some (entry_price st);
  executed_stop : trade_executed st = true <-> is_Some (stop_price st);
  executed_watermark : trade_executed st = true <-> is_Some (watermark_price st)
}.

(** Names of the spec for the three exit reasons, and the label the
    script writes for each. *)
Inductive ExitReason : Type := TakeProfit | TrailingStop | EndOfDay.

Definition exit_label (r : ExitReason) : string :=
  match r with
  | TakeProfit => "TP"
  | TrailingStop => "TrailingStop"
  | EndOfDay => "EOD"
  end.

(** ** Sample data: Monday of the reference week, levels 102 and 88 *)

Definition monday_10h : datetime := 36000.
Definition saturday_10h : datetime := 5 * 86400 + 36000.

Definition sample_times : Times := session_times monday_10h.

Definition candle (ts : datetime) (o h l c : Q) : Candle :=
  {| c_ts := ts; c_Open := o; c_High := h; c_Low := l; c_Close := c |}.

Definition sample_tick (cd : Candle) : Tick :=
  {| k_times := sample_times;
     k_long_level := 102;
     k_short_level := 88;
     k_candle := cd |}.

(** A breakout candle whose range also reaches the take-profit. *)
Definition wide_breakout : Candle := candle 36000 101 130 100 105.

(** A breakout candle that stays clear of every exit, and a later candle
    that reaches the take-profit of the long it opened at 103. *)
Definition quiet_breakout : Candle := candle 36000 101 (207 # 2) 101 103.
Definition rally : Candle := candle 36060 103 125 102 124.

(** The long opened by [quiet_breakout], after that candle. *)
Definition open_long_state : TradeState :=
  Eval vm_compute in
    match process_candle sample_times 102 88 (fresh_state 0) quiet_breakout with
    | Ok (st, _) => st
    | TypeError => fresh_state 0
    end.

Definition empty_files : Files :=
  {| reports_dir := false;
     latest_json := None;
     summary_csv := None;
     summary_json := None;
     intraday_json := None;
     state_files := ∅;
     trade_logs := ∅ |}.

(** A trade that left at its entry price. *)
Definition scratch_trade : TradeRow :=
  {| r_date := 0;
     r_direction := "long";
     r_entry_time := Some (IsoText 36000);
     r_entry_price := 103;
     r_exit_time := IsoText 36600;
     r_exit_price := 103;
     r_pnl_points := 0;
     r_pnl_usd := 0;
     r_exit_reason := "TrailingStop" |}.

(** ** Auxiliary notions for the statements *)

(** The result of the management branch, with the mark of the last
    processed candle moved. *)
Definition stamp (ts : datetime) (r : TradeState * list TradeRow)
    : TradeState * list TradeRow :=
  (set_last_processed_ts (fst r) (isoformat ts), snd r).

(** The conditions under which a candle opens a trade. *)
Definition triggers_entry (times : Times) (ll sl : Q) (st : TradeState)
    (cd : Candle) : Prop :=
  trade_open st = false /\ trade_executed st = false /\
  t_trade_start times <= c_ts cd <= t_trade_end times /\
  ((ll <= c_High cd)%Q \/ (c_Low cd <= sl)%Q).

(** The trade a triggering candle opens. *)
Definition entry_state (ll : Q) (st : TradeState) (cd : Candle) : TradeState :=
  if Qgeb (c_High cd) ll
  then open_trade st "long" (c_ts cd) (c_Close cd)
         (c_Close cd - TRAIL_DISTANCE_POINTS)%Q
  else open_trade st "short" (c_ts cd) (c_Close cd)
         (c_Close cd + TRAIL_DISTANCE_POINTS)%Q.


(** What processing candles guarantees, from a consistent state [st] to
    the state [st'] it leaves, with the rows [out] emitted on the way. *)
Record progress (st st' : TradeState) (out : list TradeRow) : Prop := {
  post_consistent : consistent st';
  post_date : session_date st' = session_date st;
  post_executed : trade_executed st = true ->
    trade_executed st' = true /\ entry_time st' = entry_time st /\
    entry_price st' = entry_price st /\
    (direction st' = direction st \/ direction st' = None);
  post_closed : trade_executed st = true -> trade_open st = false ->
    out = [] /\ (st' = st \/ exists x, st' = set_last_processed_ts st x);
  post_rows : out = [] \/
    ((exists row, out = [row]) /\ trade_open st' = false /\
     trade_executed st' = true);
  post_stop : forall s, stop_price st = Some s ->
    exists s', stop_price st' = Some s' /\
      (direction st = Some "long"%string -> (s <= s')%Q) /\
      (direction st = Some "short"%string -> (s' <= s)%Q) /\
      (direction st = None -> s' = s)
}.

(** The candles of a call, as executions of the loop body. *)
Definition ticks_of (times : Times) (long_level short_level : Q)
    (candles : list Candle) : list Tick :=
  map (fun cd => {| k_times := times;
                    k_long_level := long_level;
                    k_short_level := short_level;
                    k_candle := cd |}) candles.

(** Every field a trade in progress needs is set. *)
Definition open_fields_defined (st : TradeState) : Prop :=
  (direction st = Some "long"%string \/ direction st = Some "short"%string) /\
  is_Some (entry_time st) /\ is_Some (entry_price st) /\
  is_Some (stop_price st) /\ is_Some (watermark_price st).

(** The rows [out] are one exit, with this reason and at this price. *)
Definition exits_with (out : list TradeRow) (reason : string) (price : Q) : Prop :=
  exists row, out = [row] /\ r_exit_reason row = reason /\
              r_exit_price row = round2 price.

(** What the state after the candle and the candle itself say of a row
    that carries the reason [r]. *)
Definition reason_holds (r : ExitReason) (times : Times) (cd : Candle)
    (st' : TradeState) (row : TradeRow) : Prop :=
  match r with
  | TakeProfit =>
    exists e, entry_price st' = Some e /\
      ((r_direction row = "long"%string /\
        (e + TAKE_PROFIT_POINTS <= c_High cd)%Q /\
        r_exit_price row = round2 (e + TAKE_PROFIT_POINTS)) \/
       (r_direction row = "short"%string /\
        (c_Low cd <= e - TAKE_PROFIT_POINTS)%Q /\
        r_exit_price row = round2 (e - TAKE_PROFIT_POINTS)))
  | TrailingStop =>
    exists s, stop_price st' = Some s /\
      r_exit_price row = round2 s /\
      ((r_direction row = "long"%string /\ (c_Low cd <= s)%Q) \/
       (r_direction row = "short"%string /\ (s <= c_High cd)%Q))
  | EndOfDay =>
    t_trade_end times <= c_ts cd /\ r_exit_price row = round2 (c_Close cd)
  end.

(** The fresh state after [wide_breakout], and the row it emitted. *)
Definition wide_breakout_exit : TradeState * list TradeRow :=
  Eval vm_compute in
    match process_candle sample_times 102 88 (fresh_state 0) wide_breakout with
    | Ok r => r
    | TypeError => (fresh_state 0, [])
    end.

Definition wide_breakout_row : TradeRow :=
  Eval vm_compute in hd scratch_trade (snd wide_breakout_exit).

(** A summary row whose win mark agrees with its points. *)
Definition marked (r : SummaryRow) : Prop :=
  s_win r = if Qgtb (s_pnl_points r) 0 then 1 else 0.

(** The rows with strictly positive points. *)
Definition count_positive (l : list SummaryRow) : nat :=
  length (List.filter (fun r => Qgtb (s_pnl_points r) 0) l).

(** ** Further notions: bounds kept by an open trade *)

(** The bounds a long keeps between candles: the watermark is at or above
    the entry and below the take-profit, the stop is within the trail
    distance of both and never above the better of the trailing level
    and the entry, and the break-even flag tells whether the watermark
    has moved the trigger distance. *)
Definition long_bounds (e w s : Q) (be : bool) : Prop :=
  (e <= w)%Q /\ (w < e + TAKE_PROFIT_POINTS)%Q /\
  (e - TRAIL_DISTANCE_POINTS <= s)%Q /\ (w - TRAIL_DISTANCE_POINTS <= s)%Q /\
  ((s <= w - TRAIL_DISTANCE_POINTS)%Q \/ (s <= e)%Q) /\
  (be = true <-> (BREAKEVEN_TRIGGER_POINTS <= w - e)%Q) /\
  (be = true -> (e <= s)%Q).

(** The same for a short, mirrored. *)
Definition short_bounds (e w s : Q) (be : bool) : Prop :=
  (w <= e)%Q /\ (e - TAKE_PROFIT_POINTS < w)%Q /\
  (s <= e + TRAIL_DISTANCE_POINTS)%Q /\ (s <= w + TRAIL_DISTANCE_POINTS)%Q /\
  ((w + TRAIL_DISTANCE_POINTS <= s)%Q \/ (e <= s)%Q) /\
  (be = true <-> (BREAKEVEN_TRIGGER_POINTS <= e - w)%Q) /\
  (be = true -> (s <= e)%Q).

Definition guarded (st : TradeState) : Prop :=
  forall e w s,
    entry_price st = Some e -> watermark_price st = Some w ->
    stop_price st = Some s ->
    (direction st = Some "long"%string -> long_bounds e w s (be_triggered st)) /\
    (direction st = Some "short"%string -> short_bounds e w s (be_triggered st)).

(** The timestamp of the last candle of a sequence. *)
Definition last_ts (ticks : list Tick) : option datetime :=
  (fun k => c_ts (k_candle k)) <$> last ticks.

(** A frame whose index does not go back in time. *)
Definition ascending (df : list Candle) : Prop :=
  StronglySorted (fun a b => c_ts a <= c_ts b) df.

(** Every state file holds a state the script can have written. *)
Definition store_consistent (fs : Files) : Prop :=
  forall date st, state_files fs !! date = Some st -> consistent st.

(** The summary row of a trade of the day before [scratch_trade]. *)
Definition earlier_summary_row : SummaryRow :=
  {| s_date := -1;
     s_direction := "short";
     s_entry_time := Some (IsoText (-50400));
     s_entry_price := 90;
     s_exit_time := IsoText (-50000);
     s_exit_price := 70;
     s_pnl_points := 20;
     s_pnl_usd := 400;
     s_win := 1 |}.

(** A candle that pulls back to the stop of [open_long_state], the state
    it leaves and the row it emits. *)
Definition pullback : Candle := candle 36060 103 104 88 89.

Definition pullback_exit : TradeState * list TradeRow :=
  Eval vm_compute in
    match process_candle sample_times 102 88 open_long_state pullback with
    | Ok r => r
    | TypeError => (open_long_state, [])
    end.

Definition pullback_row : TradeRow :=
  Eval vm_compute in hd scratch_trade (snd pullback_exit).

(** A candle after the close of the session, and the candle of the close. *)
Definition after_hours : Candle := candle 57660 103 140 60 100.
Definition closing_bell : Candle := candle 57600 103 104 102 103.

(** A candle that reaches both levels. *)
Definition outside_bar : Candle := candle 36000 95 103 87 (189 # 2).

(** A selection predicate that, once it holds of a candle, holds of every
    candle that is not earlier. *)
Definition upward (p : Candle -> bool) : Prop :=
  forall a b, p a = true -> c_ts a <= c_ts b -> p b = true.

(** The files after a first run on Monday 10:00 over the opening candle
    and [quiet_breakout]. *)
Definition monday_frame : list Candle :=
  [candle 34200 100 101 99 100; quiet_breakout].

Definition monday_files : Files :=
  Eval vm_compute in
    match main monday_10h monday_frame empty_files with
    | Ok fs => fs
    | TypeError => empty_files
    end.
(** * Properties *)

(** ** Comparisons and Python's [max] and [min] *)

Lemma Qgeb_true (a b : Q) : Qgeb a b = true <-> (b <= a)%Q.
Proof. unfold Qgeb. apply Qle_bool_iff. Qed.

Lemma Qleb_true (a b : Q) : Qleb a b = true <-> (a <= b)%Q.
Proof. unfold Qleb. apply Qle_bool_iff. Qed.

Lemma Qleb_false (a b : Q) : Qleb a b = false <-> (b < a)%Q.
Proof.
  unfold Qleb. split; intros H.
  - apply Qnot_le_lt. intros Hle. apply Qle_bool_iff in Hle. congruence.
  - destruct (Qle_bool a b) eqn:E; [|reflexivity].
    apply Qle_bool_iff in E. exfalso. revert H. apply Qle_not_lt. exact E.
Qed.

Lemma Qgeb_false (a b : Q) : Qgeb a b = false <-> (a < b)%Q.
Proof. unfold Qgeb. apply (Qleb_false b a). Qed.

Lemma Qgtb_true (a b : Q) : Qgtb a b = true <-> (b < a)%Q.
Proof.
  unfold Qgtb. rewrite negb_true_iff. apply (Qleb_false a b).
Qed.

Lemma Qltb_true (a b : Q) : Qltb a b = true <-> (a < b)%Q.
Proof.
  unfold Qltb. rewrite negb_true_iff. apply (Qleb_false b a).
Qed.

Lemma pymax_ge_l (a b : Q) : (a <= pymax a b)%Q.
Proof.
  unfold pymax. destruct (Qgtb b a) eqn:E.
  - apply Qgtb_true in E. lra.
  - lra.
Qed.

Lemma pymin_le_l (a b : Q) : (pymin a b <= a)%Q.
Proof.
  unfold pymin. destruct (Qltb b a) eqn:E.
  - apply Qltb_true in E. lra.
  - lra.
Qed.

Lemma stop_long_ge (be : bool) (wm entry stop0 : Q) :
  (stop0 <= stop_long be wm entry stop0)%Q.
Proof.
  unfold stop_long. destruct (be_fires_long be wm entry).
  - eapply Qle_trans; [|apply pymax_ge_l]. apply pymax_ge_l.
  - apply pymax_ge_l.
Qed.

Lemma stop_short_le (be : bool) (wm entry stop0 : Q) :
  (stop_short be wm entry stop0 <= stop0)%Q.
Proof.
  unfold stop_short. destruct (be_fires_short be wm entry).
  - eapply Qle_trans; [apply pymin_le_l|]. apply pymin_le_l.
  - apply pymin_le_l.
Qed.

(** ** The model on the scenarios of the spec *)

Example sample_times_value :
  sample_times =
    {| t_open := 34200; t_orb_end := 35100;
       t_trade_start := 35100; t_trade_end := 57600 |}.
Proof. reflexivity. Qed.

Example weekday_of_saturday : weekday saturday_10h = 5.
Proof. reflexivity. Qed.

Example round2_half_even : round2 (2665 # 1000) = (266 # 100)%Q.
Proof. reflexivity. Qed.

(** Opening range 100/90 and offset 2: a candle with high 103 and close
    102.5 opens a long at 102.5. *)
Example long_breakout :
  entry_logic sample_times (100 + OFFSET_POINTS) (90 - OFFSET_POINTS)
    (fresh_state 0) (candle 36000 102 103 (203 # 2) (205 # 2))
  = open_trade (fresh_state 0) "long" 36000 (205 # 2)
      ((205 # 2) - TRAIL_DISTANCE_POINTS)%Q.
Proof. reflexivity. Qed.

(** A long from 100 leaves at exactly 120 when the high reaches it. *)
Example take_profit_fill :
  exit_check_long sample_times 100 90 (candle 36060 110 121 109 119)
  = Some ((100 + TAKE_PROFIT_POINTS)%Q, "TP"%string).
Proof. reflexivity. Qed.

(** With the watermark at 115 the stop of a long from 100 is pulled to
    the entry price. *)
Example breakeven_move :
  stop_long false 115 100 85 = 100%Q /\ be_fires_long false 115 100 = true.
Proof. split; reflexivity. Qed.

(** A trade still open on the candle that ends the window leaves at the
    close of that candle. *)
Example end_of_day_exit :
  exit_check_long sample_times 100 90 (candle 57600 105 106 104 105)
  = Some (105%Q, "EOD"%string).
Proof. reflexivity. Qed.

(** ** The loop body, case by case *)

Lemma manage_long_eq (times : Times) (st : TradeState) (cd : Candle) (e w s : Q) :
  direction st = Some "long"%string ->
  entry_price st = Some e ->
  watermark_price st = Some w ->
  stop_price st = Some s ->
  manage_open_trade times st cd =
    let wm := watermark_long (c_High cd) w in
    Ok (settle
          (set_trailing st wm (stop_long (be_triggered st) wm e s)
             (if be_fires_long (be_triggered st) wm e then true
              else be_triggered st))
          "long" e (c_ts cd)
          (exit_check_long times e (stop_long (be_triggered st) wm e s) cd)
          (fun p => p - e)%Q).
Proof.
  intros Hd He Hw Hs. unfold manage_open_trade.
  rewrite He, Hd, Hw, Hs. reflexivity.
Qed.

Lemma manage_short_eq (times : Times) (st : TradeState) (cd : Candle) (e w s : Q) :
  direction st = Some "short"%string ->
  entry_price st = Some e ->
  watermark_price st = Some w ->
  stop_price st = Some s ->
  manage_open_trade times st cd =
    let wm := watermark_short (c_Low cd) w in
    Ok (settle
          (set_trailing st wm (stop_short (be_triggered st) wm e s)
             (if be_fires_short (be_triggered st) wm e then true
              else be_triggered st))
          "short" e (c_ts cd)
          (exit_check_short times e (stop_short (be_triggered st) wm e s) cd)
          (fun p => e - p)%Q).
Proof.
  intros Hd He Hw Hs. unfold manage_open_trade.
  rewrite He, Hd, Hw, Hs. reflexivity.
Qed.

(** A candle met with a trade open, up to the end of the window, goes to
    the management branch with the state as it is. *)
Lemma process_candle_open (times : Times) (ll sl : Q) (st : TradeState) (cd : Candle) :
  trade_open st = true ->
  c_ts cd <= t_trade_end times ->
  process_candle times ll sl st cd =
    (r ← manage_open_trade times st cd; Ok (stamp (c_ts cd) r)).
Proof.
  intros Ho Hts. unfold process_candle, entry_logic.
  rewrite Ho. apply Z.leb_le in Hts. rewrite Hts.
  rewrite orb_true_r. cbn [negb andb]. rewrite Ho.
  destruct (manage_open_trade times st cd) as [[st2 out]|]; reflexivity.
Qed.

(** A candle past the end of the window, or met before the window with no
    trade open, only moves the mark of the last processed candle. *)
Lemma process_candle_outside (times : Times) (ll sl : Q) (st : TradeState) (cd : Candle) :
  within (c_ts cd) (t_trade_start times) (t_trade_end times) = false ->
  trade_open st && (c_ts cd <=? t_trade_end times) = false ->
  process_candle times ll sl st cd =
    Ok (set_last_processed_ts st (isoformat (c_ts cd)), []).
Proof.
  intros Hw Ho. unfold process_candle. rewrite Hw, Ho. reflexivity.
Qed.

(** A triggering candle opens the trade and goes on to the management
    branch with it. *)
Lemma process_candle_entry (times : Times) (ll sl : Q) (st : TradeState) (cd : Candle) :
  triggers_entry times ll sl st cd ->
  process_candle times ll sl st cd =
    (r ← manage_open_trade times (entry_state ll st cd) cd;
     Ok (stamp (c_ts cd) r)).
Proof.
  intros (Ho & He & [Hs Ht] & Htrig).
  unfold process_candle, entry_logic, within, entry_state.
  apply Z.leb_le in Hs. apply Z.leb_le in Ht.
  rewrite Ho, He, Hs, Ht. cbn [negb andb orb].
  destruct (Qgeb (c_High cd) ll) eqn:Hl.
  - cbn [trade_open open_trade].
    destruct (manage_open_trade _ _ _) as [[st2 out]|]; reflexivity.
  - destruct (Qleb (c_Low cd) sl) eqn:Hsh.
    + cbn [trade_open open_trade].
      destruct (manage_open_trade _ _ _) as [[st2 out]|]; reflexivity.
    + exfalso. apply Qgeb_false in Hl. apply Qleb_false in Hsh.
      destruct Htrig; lra.
Qed.

(** With no trade open and no trigger, the candle only moves the mark. *)
Lemma process_candle_idle (times : Times) (ll sl : Q) (st : TradeState) (cd : Candle) :
  trade_open st = false ->
  ~ triggers_entry times ll sl st cd ->
  process_candle times ll sl st cd =
    Ok (set_last_processed_ts st (isoformat (c_ts cd)), []).
Proof.
  intros Ho Hn. unfold process_candle, entry_logic, within.
  rewrite Ho. cbn [negb andb orb]. rewrite orb_false_r.
  destruct (t_trade_start times <=? c_ts cd) eqn:Hs; [|reflexivity].
  destruct (c_ts cd <=? t_trade_end times) eqn:Ht; [|reflexivity].
  cbn [negb andb].
  destruct (trade_executed st) eqn:He.
  - cbn [negb andb]. rewrite Ho. reflexivity.
  - cbn [negb andb].
    destruct (Qgeb (c_High cd) ll) eqn:Hl.
    + exfalso. apply Hn. apply Qgeb_true in Hl.
      apply Z.leb_le in Hs. apply Z.leb_le in Ht.
      unfold triggers_entry. auto.
    + destruct (Qleb (c_Low cd) sl) eqn:Hsh.
      * exfalso. apply Hn. apply Qleb_true in Hsh.
        apply Z.leb_le in Hs. apply Z.leb_le in Ht.
        unfold triggers_entry. auto.
      * rewrite Ho. reflexivity.
Qed.

Lemma triggers_entry_dec (times : Times) (ll sl : Q) (st : TradeState) (cd : Candle) :
  triggers_entry times ll sl st cd \/ ~ triggers_entry times ll sl st cd.
Proof.
  unfold triggers_entry.
  destruct (trade_open st); [right; intros (H & _); discriminate|].
  destruct (trade_executed st); [right; intros (_ & H & _); discriminate|].
  destruct (Z_le_dec (t_trade_start times) (c_ts cd)) as [Hs|Hs];
    [|right; intros (_ & _ & [H _] & _); contradiction].
  destruct (Z_le_dec (c_ts cd) (t_trade_end times)) as [Ht|Ht];
    [|right; intros (_ & _ & [_ H] & _); contradiction].
  destruct (Qlt_le_dec (c_High cd) ll) as [Hl|Hl]; [|left; auto].
  destruct (Qlt_le_dec sl (c_Low cd)) as [Hsh|Hsh]; [|left; auto].
  right. intros (_ & _ & _ & [H|H]); lra.
Qed.

(** ** Consistency of the reachable states *)

Lemma consistent_fresh (date : Z) : consistent (fresh_state date).
Proof.
  constructor; cbn; try discriminate; try reflexivity;
    split; intros H; try discriminate; destruct H as [x H]; discriminate.
Qed.

Lemma consistent_stamp (st : TradeState) (x : tstext) :
  consistent st -> consistent (set_last_processed_ts st x).
Proof. intros [H1 H2 H3 H4 H5 H6 H7]. constructor; cbn; assumption. Qed.

Lemma consistent_entry (ll : Q) (st : TradeState) (cd : Candle) :
  consistent (entry_state ll st cd).
Proof.
  unfold entry_state.
  destruct (Qgeb (c_High cd) ll); constructor; cbn; auto; try discriminate;
    split; eauto.
Qed.

Lemma consistent_trailing (st : TradeState) (wm stop : Q) (be : bool) :
  consistent st -> trade_executed st = true ->
  consistent (set_trailing st wm stop be).
Proof.
  intros [H1 H2 H3 H4 H5 H6 H7] He. constructor; cbn; auto; split; eauto.
Qed.

Lemma consistent_close (st : TradeState) :
  consistent st -> consistent (close_trade st).
Proof.
  intros [H1 H2 H3 H4 H5 H6 H7]. constructor; cbn; auto; discriminate.
Qed.

Lemma consistent_settle (st : TradeState) (dir : string) (e : Q) (ts : datetime)
    (exit : option (Q * string)) (pnl : Q -> Q) :
  consistent st -> consistent (fst (settle st dir e ts exit pnl)).
Proof.
  intros H. unfold settle. destruct exit as [[p r]|]; cbn [fst].
  - apply consistent_close, H.
  - exact H.
Qed.

(** In a consistent state with a trade open the management branch finds
    every field it reads. *)
Lemma manage_shape (times : Times) (st : TradeState) (cd : Candle) :
  consistent st -> trade_open st = true ->
  exists e w s,
    entry_price st = Some e /\ watermark_price st = Some w /\
    stop_price st = Some s /\
    ((direction st = Some "long"%string /\
      manage_open_trade times st cd =
        Ok (settle
              (set_trailing st (watermark_long (c_High cd) w)
                 (stop_long (be_triggered st) (watermark_long (c_High cd) w) e s)
                 (if be_fires_long (be_triggered st)
                       (watermark_long (c_High cd) w) e
                  then true else be_triggered st))
              "long" e (c_ts cd)
              (exit_check_long times e
                 (stop_long (be_triggered st) (watermark_long (c_High cd) w) e s)
                 cd)
              (fun p => p - e)%Q))
     \/
     (direction st = Some "short"%string /\
      manage_open_trade times st cd =
        Ok (settle
              (set_trailing st (watermark_short (c_Low cd) w)
                 (stop_short (be_triggered st) (watermark_short (c_Low cd) w) e s)
                 (if be_fires_short (be_triggered st)
                       (watermark_short (c_Low cd) w) e
                  then true else be_triggered st))
              "short" e (c_ts cd)
              (exit_check_short times e
                 (stop_short (be_triggered st) (watermark_short (c_Low cd) w) e s)
                 cd)
              (fun p => e - p)%Q))).
Proof.
  intros [H1 H2 H3 H4 H5 H6 H7] Ho.
  pose proof (H1 Ho) as He.
  destruct (proj1 H5 He) as [e Hep].
  destruct (proj1 H6 He) as [s Hsp].
  destruct (proj1 H7 He) as [w Hwp].
  exists e, w, s. repeat split; try assumption.
  destruct (H2 Ho) as [Hd|Hd].
  - left. split; [exact Hd|].
    apply (manage_long_eq times st cd e w s Hd Hep Hwp Hsp).
  - right. split; [exact Hd|].
    apply (manage_short_eq times st cd e w s Hd Hep Hwp Hsp).
Qed.

(** The three ways a candle is processed from a consistent state. *)
Lemma tick_shape (st : TradeState) (k : Tick) :
  consistent st ->
  tick st k = Ok (set_last_processed_ts st (isoformat (c_ts (k_candle k))), [])
  \/
  exists st1,
    consistent st1 /\ trade_open st1 = true /\
    ((st1 = st /\ c_ts (k_candle k) <= t_trade_end (k_times k)) \/
     (triggers_entry (k_times k) (k_long_level k) (k_short_level k) st (k_candle k)
      /\ st1 = entry_state (k_long_level k) st (k_candle k))) /\
    tick st k =
      (r ← manage_open_trade (k_times k) st1 (k_candle k);
       Ok (stamp (c_ts (k_candle k)) r)).
Proof.
  intros Hc. unfold tick.
  destruct (trade_open st) eqn:Ho.
  - destruct (Z_le_dec (c_ts (k_candle k)) (t_trade_end (k_times k))) as [Ht|Ht].
    + right. exists st.
      split; [exact Hc|]. split; [exact Ho|]. split; [left; auto|].
      apply process_candle_open; assumption.
    + left. apply process_candle_outside.
      * unfold within. apply andb_false_iff. right. apply Z.leb_gt. lia.
      * apply andb_false_iff. right. apply Z.leb_gt. lia.
  - destruct (triggers_entry_dec (k_times k) (k_long_level k) (k_short_level k)
                st (k_candle k)) as [Htr|Htr].
    + right. exists (entry_state (k_long_level k) st (k_candle k)).
      split; [apply consistent_entry|].
      split; [unfold entry_state; destruct (Qgeb _ _); reflexivity|].
      split; [right; auto|].
      apply process_candle_entry; assumption.
    + left. apply process_candle_idle; assumption.
Qed.

(** The management branch either leaves the trade open and emits
    nothing, or closes it and emits one row. *)
Lemma settle_cases (st : TradeState) (dir : string) (e : Q) (ts : datetime)
    (exit : option (Q * string)) (pnl : Q -> Q) :
  (exit = None /\ settle st dir e ts exit pnl = (st, []))
  \/
  (exists p r, exit = Some (p, r) /\
     settle st dir e ts exit pnl =
       (close_trade st, [make_row st dir e ts p (pnl p) r])).
Proof.
  destruct exit as [[p r]|]; [right; exists p, r|left]; split; reflexivity.
Qed.

Lemma progress_managed (st st1 : TradeState) (ts : datetime) (wm stop : Q)
    (be : bool) (dir : string) (e s1 : Q) (exit : option (Q * string))
    (pnl : Q -> Q) :
  consistent st -> consistent st1 -> trade_open st1 = true ->
  st1 = st \/ (trade_executed st = false /\ session_date st1 = session_date st) ->
  stop_price st1 = Some s1 ->
  direction st1 = Some dir ->
  (dir = "long"%string -> (s1 <= stop)%Q) ->
  (dir = "short"%string -> (stop <= s1)%Q) ->
  progress st
    (fst (stamp ts (settle (set_trailing st1 wm stop be) dir e ts exit pnl)))
    (snd (stamp ts (settle (set_trailing st1 wm stop be) dir e ts exit pnl))).
Proof.
  intros Hc Hc1 Ho1 Hfrom Hs1 Hd Hlong Hshort.
  pose proof (open_executed st1 Hc1 Ho1) as He1.
  pose proof (consistent_trailing st1 wm stop be Hc1 He1) as Hct.
  assert (Hstop : forall s, stop_price st = Some s ->
            st1 = st /\ s = s1).
  { intros s Hs. destruct Hfrom as [->|[Hne _]].
    - split; [reflexivity|]. congruence.
    - assert (trade_executed st = true) by (apply (executed_stop st Hc); eauto).
      congruence. }
  assert (Hmono : forall s, stop_price st = Some s ->
            (direction st = Some "long"%string -> (s <= stop)%Q) /\
            (direction st = Some "short"%string -> (stop <= s)%Q) /\
            (direction st = None -> stop = s)).
  { intros s Hs. destruct (Hstop s Hs) as [-> ->].
    split; [|split].
    - intros Hl. apply Hlong. congruence.
    - intros Hsh. apply Hshort. congruence.
    - intros Hn. congruence. }
  destruct (settle_cases (set_trailing st1 wm stop be) dir e ts exit pnl)
    as [[_ ->]|(p & r & _ & ->)]; cbn [stamp fst snd].
  - constructor.
    + apply consistent_stamp, Hct.
    + cbn. destruct Hfrom as [->|[_ ->]]; reflexivity.
    + intros He. destruct Hfrom as [->|[Hne _]]; [|congruence].
      cbn. auto.
    + intros He Hcl. destruct Hfrom as [->|[Hne _]]; congruence.
    + left. reflexivity.
    + intros s Hs. exists stop. split; [reflexivity|]. apply Hmono, Hs.
  - constructor.
    + apply consistent_stamp, consistent_close, Hct.
    + cbn. destruct Hfrom as [->|[_ ->]]; reflexivity.
    + intros He. destruct Hfrom as [->|[Hne _]]; [|congruence].
      cbn. auto.
    + intros He Hcl. destruct Hfrom as [->|[Hne _]]; congruence.
    + right. split; [eauto|]. cbn. auto.
    + intros s Hs. exists stop. split; [reflexivity|]. apply Hmono, Hs.
Qed.

(** Every candle is processed without error from a consistent state, and
    leaves a consistent state. *)
Lemma tick_progress (st : TradeState) (k : Tick) :
  consistent st ->
  exists st' out, tick st k = Ok (st', out) /\ progress st st' out.
Proof.
  intros Hc.
  destruct (tick_shape st k Hc) as [Hidle|(st1 & Hc1 & Ho1 & Hfrom & Heq)].
  - eexists _, _. split; [exact Hidle|].
    constructor.
    + apply consistent_stamp, Hc.
    + reflexivity.
    + cbn. auto.
    + intros _ _. split; [reflexivity|]. right. eauto.
    + left. reflexivity.
    + intros s Hs. exists s. cbn. auto using Qle_refl.
  - assert (Hfrom' : st1 = st \/
              (trade_executed st = false /\ session_date st1 = session_date st)).
    { destruct Hfrom as [[-> _]|[(_ & He & _) ->]]; [left; reflexivity|right].
      split; [exact He|]. unfold entry_state.
      destruct (Qgeb _ _); reflexivity. }
    destruct (manage_shape (k_times k) st1 (k_candle k) Hc1 Ho1)
      as (e & w & s & Hep & Hwp & Hsp & [[Hd Hm]|[Hd Hm]]);
      rewrite Heq, Hm; cbn [mbind result_bind];
      eexists _, _; (split; [f_equal; apply surjective_pairing|]).
    + eapply progress_managed; eauto.
      * intros _. apply stop_long_ge.
      * discriminate.
    + eapply progress_managed; eauto.
      * discriminate.
      * intros _. apply stop_short_le.
Qed.

Lemma progress_refl (st : TradeState) : consistent st -> progress st st [].
Proof.
  intros Hc. constructor; auto.
  intros s Hs. exists s. auto using Qle_refl.
Qed.

Lemma restamp (st : TradeState) (x y : tstext) :
  set_last_processed_ts (set_last_processed_ts st x) y =
  set_last_processed_ts st y.
Proof. reflexivity. Qed.

Lemma progress_trans (st st1 st2 : TradeState) (o1 o2 : list TradeRow) :
  consistent st -> progress st st1 o1 -> progress st1 st2 o2 ->
  progress st st2 (o1 ++ o2).
Proof.
  intros Hc [A1 A2 A3 A4 A5 A6] [B1 B2 B3 B4 B5 B6].
  constructor.
  - exact B1.
  - congruence.
  - intros He. destruct (A3 He) as (E1 & E2 & E3 & E4).
    destruct (B3 E1) as (F1 & F2 & F3 & F4).
    repeat split; try congruence.
    destruct E4 as [E4|E4]; [rewrite <- E4; exact F4|].
    right. destruct F4 as [F4|F4]; congruence.
  - intros He Hcl. destruct (A4 He Hcl) as [-> Hst1].
    assert (trade_executed st1 = true /\ trade_open st1 = false) as [He1 Hcl1].
    { destruct Hst1 as [->|[x ->]]; cbn; auto. }
    destruct (B4 He1 Hcl1) as [-> Hst2]. split; [reflexivity|].
    destruct Hst1 as [->|[x ->]]; [exact Hst2|].
    destruct Hst2 as [->|[y ->]]; right; eauto.
  - destruct A5 as [->|([row ->] & Hcl1 & He1)]; [exact B5|].
    destruct (B4 He1 Hcl1) as [-> Hst2].
    right. split; [eauto|].
    destruct Hst2 as [->|[y ->]]; cbn; auto.
  - intros s Hs.
    assert (He : trade_executed st = true) by (apply (executed_stop st Hc); eauto).
    destruct (A3 He) as (E1 & _ & _ & E4).
    destruct (A6 s Hs) as (s1 & Hs1 & L1 & S1 & N1).
    destruct (B6 s1 Hs1) as (s2 & Hs2 & L2 & S2 & N2).
    exists s2. split; [exact Hs2|].
    split; [|split].
    + intros Hl. specialize (L1 Hl).
      destruct E4 as [E4|E4].
      * rewrite <- Hl, <- E4 in L2. specialize (L2 eq_refl). lra.
      * rewrite (N2 E4). exact L1.
    + intros Hsh. specialize (S1 Hsh).
      destruct E4 as [E4|E4].
      * rewrite <- Hsh, <- E4 in S2. specialize (S2 eq_refl). lra.
      * rewrite (N2 E4). exact S1.
    + intros Hn. rewrite <- (N1 Hn). apply N2.
      destruct E4 as [E4|E4]; congruence.
Qed.

(** Every sequence of candles is processed without error from a
    consistent state. *)
Lemma run_progress (ticks : list Tick) (st : TradeState) :
  consistent st ->
  exists st' out, run st ticks = Ok (st', out) /\ progress st st' out.
Proof.
  revert st. induction ticks as [|k rest IH]; intros st Hc.
  - exists st, []. split; [reflexivity|]. apply progress_refl, Hc.
  - destruct (tick_progress st k Hc) as (st1 & o1 & Ht & P1).
    destruct (IH st1 (post_consistent _ _ _ P1)) as (st2 & o2 & Hr & P2).
    exists st2, (o1 ++ o2). split.
    + cbn [run]. rewrite Ht. cbn [mbind result_bind]. rewrite Hr. reflexivity.
    + eapply progress_trans; eauto.
Qed.

Lemma reachable_consistent (st : TradeState) : reachable st -> consistent st.
Proof.
  induction 1 as [date|st st' k out _ IH Ht].
  - apply consistent_fresh.
  - destruct (tick_progress st k IH) as (st2 & o2 & Ht2 & P).
    rewrite Ht in Ht2. injection Ht2 as -> ->. exact (post_consistent _ _ _ P).
Qed.

(** ** Calls of the script as sequences of candles *)

Lemma process_candles_run (times : Times) (ll sl : Q) (candles : list Candle)
    (st : TradeState) :
  process_candles times ll sl st candles = run st (ticks_of times ll sl candles).
Proof.
  revert st. induction candles as [|cd rest IH]; intros st; [reflexivity|].
  cbn [process_candles ticks_of map run]. unfold tick at 1. cbn [k_times k_long_level k_short_level k_candle].
  destruct (process_candle times ll sl st cd) as [[st1 o1]|]; [|reflexivity].
  cbn [mbind result_bind]. fold (ticks_of times ll sl rest). rewrite IH. reflexivity.
Qed.

Lemma run_app (a b : list Tick) (st : TradeState) :
  run st (a ++ b) =
    ('(st1, o1) ← run st a; '(st2, o2) ← run st1 b; Ok (st2, o1 ++ o2)).
Proof.
  revert st. induction a as [|k a IH]; intros st.
  - cbn. destruct (run st b) as [[st2 o2]|]; reflexivity.
  - cbn [app run]. destruct (tick st k) as [[st1 o1]|]; [|reflexivity].
    cbn [mbind result_bind]. rewrite IH.
    destruct (run st1 a) as [[st2 o2]|]; [|reflexivity].
    cbn [mbind result_bind].
    destruct (run st2 b) as [[st3 o3]|]; [|reflexivity].
    cbn [mbind result_bind]. rewrite app_assoc. reflexivity.
Qed.

Lemma advance_run (times : Times) (st : TradeState) (today_df : list Candle) :
  exists ticks, advance times st today_df = run st ticks.
Proof.
  unfold advance.
  destruct (compute_opening_range _ _ _) as [[hi lo]|].
  - eexists. apply process_candles_run.
  - exists []. reflexivity.
Qed.

(** Whatever the calls of a session do is a sequence of executions of the
    loop body. *)
Lemma session_run (times : Times) (calls : list (list Candle)) (st : TradeState) :
  exists ticks, session times st calls = run st ticks.
Proof.
  revert st. induction calls as [|df rest IH]; intros st.
  - exists []. reflexivity.
  - cbn [session]. destruct (advance_run times st df) as [t1 ->].
    destruct (run st t1) as [[st1 o1]|] eqn:E1.
    + destruct (IH st1) as [t2 E2]. exists (t1 ++ t2).
      rewrite run_app, E1. cbn [mbind result_bind]. rewrite E2. reflexivity.
    + exists t1. rewrite E1. reflexivity.
Qed.

Lemma run_reachable (ticks : list Tick) (st st' : TradeState) (out : list TradeRow) :
  reachable st -> run st ticks = Ok (st', out) -> reachable st'.
Proof.
  revert st out. induction ticks as [|k rest IH]; intros st out Hr Hrun.
  - cbn in Hrun. injection Hrun as <- _. exact Hr.
  - cbn [run] in Hrun.
    destruct (tick st k) as [[st1 o1]|] eqn:Ht; [|discriminate].
    cbn [mbind result_bind] in Hrun.
    destruct (run st1 rest) as [[st2 o2]|] eqn:Hrest; [|discriminate].
    cbn [mbind result_bind] in Hrun. injection Hrun as <- _.
    eapply IH; [|exact Hrest]. eapply reach_tick; eauto.
Qed.


Lemma open_long_reachable : reachable open_long_state.
Proof.
  apply (reach_tick (fresh_state 0) open_long_state
           (sample_tick quiet_breakout) []).
  - apply reach_fresh.
  - vm_compute. reflexivity.
Qed.


(** ** The session state machine *)

(** C3. While a trade lives, over every sequence of processed candles,
    the stop of a long never goes down and the stop of a short never goes
    up; the sequence is processed without error. *)
Theorem stop_never_loosens (st : TradeState) (ticks : list Tick) (s : Q) :
  reachable st ->
  stop_price st = Some s ->
  exists st' out s',
    run st ticks = Ok (st', out) /\
    stop_price st' = Some s' /\
    (direction st = Some "long"%string -> (s <= s')%Q) /\
    (direction st = Some "short"%string -> (s' <= s)%Q).
Proof.
  intros Hr Hs.
  destruct (run_progress ticks st (reachable_consistent st Hr))
    as (st' & out & Hrun & P).
  destruct (post_stop _ _ _ P s Hs) as (s' & Hs' & Hl & Hsh & _).
  exists st', out, s'. auto.
Qed.

Lemma stop_never_loosens_witness :
  exists st' out s',
    run open_long_state [sample_tick rally] = Ok (st', out) /\
    stop_price st' = Some s' /\
    (direction open_long_state = Some "long"%string -> (177 # 2 <= s')%Q) /\
    (direction open_long_state = Some "short"%string -> (s' <= 177 # 2)%Q).
Proof.
  apply (stop_never_loosens open_long_state [sample_tick rally] (177 # 2)).
  - exact open_long_reachable.
  - reflexivity.
Defined.


(** The same for the calls of a session: they emit at most one row. *)
Lemma session_one_trade (times : Times) (date : Z) (calls : list (list Candle)) :
  exists st out,
    session times (fresh_state date) calls = Ok (st, out) /\
    (length out <= 1)%nat.
Proof.
  destruct (session_run times calls (fresh_state date)) as [ticks ->].
  destruct (run_progress ticks (fresh_state date) (consistent_fresh date))
    as (st & out & Hrun & P).
  exists st, out. split; [exact Hrun|].
  destruct (post_rows _ _ _ P) as [->|([row ->] & _)]; cbn; lia.
Qed.

(** C6, as the script has it. In every reachable state an open trade has
    its watermark, and the watermark is set exactly when an entry has
    happened; closing the trade leaves the watermark in place: it is
    still set after the candle that closes the trade, and once the trade
    is closed it keeps its value over every later sequence of candles. *)
Theorem watermark_defined_iff_executed (st : TradeState) :
  reachable st ->
  (trade_open st = true -> is_Some (watermark_price st)) /\
  (is_Some (watermark_price st) <-> trade_executed st = true) /\
  (forall k, exists st' out,
     tick st k = Ok (st', out) /\
     (is_Some (watermark_price st) -> is_Some (watermark_price st'))) /\
  (trade_executed st = true -> trade_open st = false ->
   forall ticks, exists st' out,
     run st ticks = Ok (st', out) /\
     trade_open st' = false /\
     watermark_price st' = watermark_price st).
Proof.
  intros Hr. pose proof (reachable_consistent st Hr) as Hc.
  split; [|split; [|split]].
  - intros Ho. apply (executed_watermark st Hc), (open_executed st Hc), Ho.
  - symmetry. apply (executed_watermark st Hc).
  - intros k. destruct (tick_progress st k Hc) as (st' & out & Ht & P).
    exists st', out. split; [exact Ht|].
    intros Hw. apply (executed_watermark st Hc) in Hw.
    destruct (post_executed _ _ _ P Hw) as (He' & _).
    apply (executed_watermark st' (post_consistent _ _ _ P)), He'.
  - intros He Hcl ticks.
    destruct (run_progress ticks st Hc) as (st' & out & Hrun & P).
    exists st', out. split; [exact Hrun|].
    destruct (post_closed _ _ _ P He Hcl) as [_ [->|[x ->]]];
      split; first [exact Hcl|reflexivity].
Qed.

Lemma watermark_defined_iff_executed_witness :
  ((trade_open open_long_state = true ->
    is_Some (watermark_price open_long_state)) /\
   (is_Some (watermark_price open_long_state) <->
    trade_executed open_long_state = true) /\
   (forall k, exists st' out,
      tick open_long_state k = Ok (st', out) /\
      (is_Some (watermark_price open_long_state) ->
       is_Some (watermark_price st'))) /\
   (trade_executed open_long_state = true ->
    trade_open open_long_state = false ->
    forall ticks, exists st' out,
      run open_long_state ticks = Ok (st', out) /\
      trade_open st' = false /\
      watermark_price st' = watermark_price open_long_state)) /\
  ((trade_open (fst wide_breakout_exit) = true ->
    is_Some (watermark_price (fst wide_breakout_exit))) /\
   (is_Some (watermark_price (fst wide_breakout_exit)) <->
    trade_executed (fst wide_breakout_exit) = true) /\
   (forall k, exists st' out,
      tick (fst wide_breakout_exit) k = Ok (st', out) /\
      (is_Some (watermark_price (fst wide_breakout_exit)) ->
       is_Some (watermark_price st'))) /\
   (trade_executed (fst wide_breakout_exit) = true ->
    trade_open (fst wide_breakout_exit) = false ->
    forall ticks, exists st' out,
      run (fst wide_breakout_exit) ticks = Ok (st', out) /\
      trade_open st' = false /\
      watermark_price st' = watermark_price (fst wide_breakout_exit))).
Proof.
  split.
  - apply (watermark_defined_iff_executed open_long_state).
    exact open_long_reachable.
  - apply (watermark_defined_iff_executed (fst wide_breakout_exit)).
    apply (reach_tick (fresh_state 0) (fst wide_breakout_exit)
             (sample_tick wide_breakout) (snd wide_breakout_exit)).
    + apply reach_fresh.
    + vm_compute. reflexivity.
Defined.

(** C6 as stated fails: after the long opened by [quiet_breakout] is
    closed by [rally], the trade is no longer open and the watermark is
    still set. *)
Lemma watermark_survives_close :
  exists st out,
    run (fresh_state 0) [sample_tick quiet_breakout; sample_tick rally]
      = Ok (st, out) /\
    reachable st /\
    trade_open st = false /\
    watermark_price st = Some 125%Q /\
    ~ (is_Some (watermark_price st) <-> trade_open st = true).
Proof.
  eexists _, _. split; [vm_compute; reflexivity|].
  split; [|split; [reflexivity|split; [reflexivity|]]].
  - eapply (run_reachable [sample_tick quiet_breakout; sample_tick rally]);
      [apply (reach_fresh 0)|vm_compute; reflexivity].
  - cbn. intros [H _]. specialize (H (ex_intro _ _ eq_refl)). discriminate.
Qed.

(** C9. In every reachable state an open trade has a direction, long or
    short, and its entry time, entry price, stop and watermark; every
    candle is processed without error and leaves such a state. *)
Theorem open_trade_fields_defined (st : TradeState) :
  reachable st ->
  (trade_open st = true -> open_fields_defined st) /\
  (forall k, exists st' out,
     tick st k = Ok (st', out) /\
     (trade_open st' = true -> open_fields_defined st')).
Proof.
  assert (Hinv : forall s, consistent s -> trade_open s = true ->
                           open_fields_defined s).
  { intros s Hc Ho. pose proof (open_executed s Hc Ho) as He.
    unfold open_fields_defined.
    split; [apply (open_direction s Hc Ho)|].
    split; [apply (executed_entry_time s Hc), He|].
    split; [apply (executed_entry_price s Hc), He|].
    split; [apply (executed_stop s Hc), He|].
    apply (executed_watermark s Hc), He. }
  intros Hr. pose proof (reachable_consistent st Hr) as Hc.
  split; [apply Hinv, Hc|].
  intros k. destruct (tick_progress st k Hc) as (st' & out & Ht & P).
  exists st', out. split; [exact Ht|].
  apply Hinv, (post_consistent _ _ _ P).
Qed.

Lemma open_trade_fields_defined_witness :
  (trade_open open_long_state = true -> open_fields_defined open_long_state) /\
  (forall k, exists st' out,
     tick open_long_state k = Ok (st', out) /\
     (trade_open st' = true -> open_fields_defined st')).
Proof.
  apply (open_trade_fields_defined open_long_state).
  exact open_long_reachable.
Defined.

(** ** Exit checks *)

Lemma exit_check_long_spec (times : Times) (e stop : Q) (cd : Candle) :
  ((e + TAKE_PROFIT_POINTS <= c_High cd)%Q ->
   exit_check_long times e stop cd
     = Some ((e + TAKE_PROFIT_POINTS)%Q, "TP"%string)) /\
  ((c_High cd < e + TAKE_PROFIT_POINTS)%Q -> (c_Low cd <= stop)%Q ->
   exit_check_long times e stop cd = Some (stop, "TrailingStop"%string)) /\
  ((c_High cd < e + TAKE_PROFIT_POINTS)%Q -> (stop < c_Low cd)%Q ->
   t_trade_end times <= c_ts cd ->
   exit_check_long times e stop cd = Some (c_Close cd, "EOD"%string)) /\
  ((c_High cd < e + TAKE_PROFIT_POINTS)%Q -> (stop < c_Low cd)%Q ->
   c_ts cd < t_trade_end times ->
   exit_check_long times e stop cd = None).
Proof.
  unfold exit_check_long.
  destruct (Qgeb (c_High cd) (e + TAKE_PROFIT_POINTS)) eqn:Htp;
    [apply Qgeb_true in Htp|apply Qgeb_false in Htp];
    (destruct (Qleb (c_Low cd) stop) eqn:Hst;
       [apply Qleb_true in Hst|apply Qleb_false in Hst]);
    (destruct (t_trade_end times <=? c_ts cd) eqn:Heod;
       [apply Z.leb_le in Heod|apply Z.leb_gt in Heod]);
    repeat split; intros; try reflexivity; try lra; try lia.
Qed.

Lemma exit_check_short_spec (times : Times) (e stop : Q) (cd : Candle) :
  ((c_Low cd <= e - TAKE_PROFIT_POINTS)%Q ->
   exit_check_short times e stop cd
     = Some ((e - TAKE_PROFIT_POINTS)%Q, "TP"%string)) /\
  ((e - TAKE_PROFIT_POINTS < c_Low cd)%Q -> (stop <= c_High cd)%Q ->
   exit_check_short times e stop cd = Some (stop, "TrailingStop"%string)) /\
  ((e - TAKE_PROFIT_POINTS < c_Low cd)%Q -> (c_High cd < stop)%Q ->
   t_trade_end times <= c_ts cd ->
   exit_check_short times e stop cd = Some (c_Close cd, "EOD"%string)) /\
  ((e - TAKE_PROFIT_POINTS < c_Low cd)%Q -> (c_High cd < stop)%Q ->
   c_ts cd < t_trade_end times ->
   exit_check_short times e stop cd = None).
Proof.
  unfold exit_check_short.
  destruct (Qleb (c_Low cd) (e - TAKE_PROFIT_POINTS)) eqn:Htp;
    [apply Qleb_true in Htp|apply Qleb_false in Htp];
    (destruct (Qgeb (c_High cd) stop) eqn:Hst;
       [apply Qgeb_true in Hst|apply Qgeb_false in Hst]);
    (destruct (t_trade_end times <=? c_ts cd) eqn:Heod;
       [apply Z.leb_le in Heod|apply Z.leb_gt in Heod]);
    repeat split; intros; try reflexivity; try lra; try lia.
Qed.

Lemma exit_check_long_inv (times : Times) (e stop : Q) (cd : Candle)
    (p : Q) (r : string) :
  exit_check_long times e stop cd = Some (p, r) ->
  (r = "TP"%string /\ p = (e + TAKE_PROFIT_POINTS)%Q /\
   (e + TAKE_PROFIT_POINTS <= c_High cd)%Q) \/
  (r = "TrailingStop"%string /\ p = stop /\ (c_Low cd <= stop)%Q) \/
  (r = "EOD"%string /\ p = c_Close cd /\ t_trade_end times <= c_ts cd).
Proof.
  unfold exit_check_long.
  destruct (Qgeb (c_High cd) (e + TAKE_PROFIT_POINTS)) eqn:Htp.
  { intros [= <- <-]. apply Qgeb_true in Htp. auto. }
  destruct (Qleb (c_Low cd) stop) eqn:Hst.
  { intros [= <- <-]. apply Qleb_true in Hst. auto. }
  destruct (t_trade_end times <=? c_ts cd) eqn:Heod; [|discriminate].
  intros [= <- <-]. apply Z.leb_le in Heod. auto.
Qed.

Lemma exit_check_short_inv (times : Times) (e stop : Q) (cd : Candle)
    (p : Q) (r : string) :
  exit_check_short times e stop cd = Some (p, r) ->
  (r = "TP"%string /\ p = (e - TAKE_PROFIT_POINTS)%Q /\
   (c_Low cd <= e - TAKE_PROFIT_POINTS)%Q) \/
  (r = "TrailingStop"%string /\ p = stop /\ (stop <= c_High cd)%Q) \/
  (r = "EOD"%string /\ p = c_Close cd /\ t_trade_end times <= c_ts cd).
Proof.
  unfold exit_check_short.
  destruct (Qleb (c_Low cd) (e - TAKE_PROFIT_POINTS)) eqn:Htp.
  { intros [= <- <-]. apply Qleb_true in Htp. auto. }
  destruct (Qgeb (c_High cd) stop) eqn:Hst.
  { intros [= <- <-]. apply Qgeb_true in Hst. auto. }
  destruct (t_trade_end times <=? c_ts cd) eqn:Heod; [|discriminate].
  intros [= <- <-]. apply Z.leb_le in Heod. auto.
Qed.

Lemma exit_check_long_none (times : Times) (e stop : Q) (cd : Candle) :
  exit_check_long times e stop cd = None <->
  (c_High cd < e + TAKE_PROFIT_POINTS)%Q /\ (stop < c_Low cd)%Q /\
  c_ts cd < t_trade_end times.
Proof.
  split.
  - unfold exit_check_long.
    destruct (Qgeb (c_High cd) (e + TAKE_PROFIT_POINTS)) eqn:Htp; [discriminate|].
    destruct (Qleb (c_Low cd) stop) eqn:Hst; [discriminate|].
    destruct (t_trade_end times <=? c_ts cd) eqn:Heod; [discriminate|].
    intros _. apply Qgeb_false in Htp. apply Qleb_false in Hst.
    apply Z.leb_gt in Heod. auto.
  - intros (H1 & H2 & H3).
    apply (exit_check_long_spec times e stop cd); assumption.
Qed.

Lemma exit_check_short_none (times : Times) (e stop : Q) (cd : Candle) :
  exit_check_short times e stop cd = None <->
  (e - TAKE_PROFIT_POINTS < c_Low cd)%Q /\ (c_High cd < stop)%Q /\
  c_ts cd < t_trade_end times.
Proof.
  split.
  - unfold exit_check_short.
    destruct (Qleb (c_Low cd) (e - TAKE_PROFIT_POINTS)) eqn:Htp; [discriminate|].
    destruct (Qgeb (c_High cd) stop) eqn:Hst; [discriminate|].
    destruct (t_trade_end times <=? c_ts cd) eqn:Heod; [discriminate|].
    intros _. apply Qleb_false in Htp. apply Qgeb_false in Hst.
    apply Z.leb_gt in Heod. auto.
  - intros (H1 & H2 & H3).
    apply (exit_check_short_spec times e stop cd); assumption.
Qed.

(** What the management branch returns, read off the exit check. *)
Lemma settled_fields (st : TradeState) (wm stop : Q) (be : bool) (dir : string)
    (e : Q) (ts : datetime) (exit : option (Q * string)) (pnl : Q -> Q) :
  let r := stamp ts (settle (set_trailing st wm stop be) dir e ts exit pnl) in
  stop_price (fst r) = Some stop /\
  entry_price (fst r) = entry_price st /\
  trade_executed (fst r) = trade_executed st /\
  (exit = None -> snd r = [] /\ trade_open (fst r) = trade_open st) /\
  (forall p reason, exit = Some (p, reason) ->
     exits_with (snd r) reason p /\ trade_open (fst r) = false).
Proof.
  destruct exit as [[p reason]|]; cbn;
    (split; [reflexivity|]); (split; [reflexivity|]); (split; [reflexivity|]);
    split; try discriminate; auto.
  intros p' reason' [= <- <-]. split; [|reflexivity].
  eexists. cbn. eauto.
Qed.

(** On its entry candle the stop of a long ends at or above close minus
    the trail distance, the stop of a short at or below close plus it. *)
Lemma entry_candle_stop (times : Times) (ll sl : Q) (st : TradeState) (cd : Candle) :
  triggers_entry times ll sl st cd ->
  exists st' out stop,
    process_candle times ll sl st cd = Ok (st', out) /\
    stop_price st' = Some stop /\
    ((ll <= c_High cd)%Q -> (c_Close cd - TRAIL_DISTANCE_POINTS <= stop)%Q) /\
    ((c_High cd < ll)%Q -> (stop <= c_Close cd + TRAIL_DISTANCE_POINTS)%Q).
Proof.
  intros Htr. rewrite (process_candle_entry times ll sl st cd Htr).
  unfold entry_state.
  destruct (Qgeb (c_High cd) ll) eqn:Hl.
  - apply Qgeb_true in Hl.
    rewrite (manage_long_eq times
               (open_trade st "long" (c_ts cd) (c_Close cd)
                  (c_Close cd - TRAIL_DISTANCE_POINTS)%Q)
               cd (c_Close cd) (c_Close cd)
               (c_Close cd - TRAIL_DISTANCE_POINTS)%Q
               eq_refl eq_refl eq_refl eq_refl).
    cbn [mbind result_bind be_triggered open_trade]. cbv zeta.
    eexists _, _, _. split; [f_equal; apply surjective_pairing|].
    split; [apply settled_fields|].
    split; [intros _; apply stop_long_ge|intros H; lra].
  - apply Qgeb_false in Hl.
    rewrite (manage_short_eq times
               (open_trade st "short" (c_ts cd) (c_Close cd)
                  (c_Close cd + TRAIL_DISTANCE_POINTS)%Q)
               cd (c_Close cd) (c_Close cd)
               (c_Close cd + TRAIL_DISTANCE_POINTS)%Q
               eq_refl eq_refl eq_refl eq_refl).
    cbn [mbind result_bind be_triggered open_trade]. cbv zeta.
    eexists _, _, _. split; [f_equal; apply surjective_pairing|].
    split; [apply settled_fields|].
    split; [intros H; lra|intros _; apply stop_short_le].
Qed.



(** C1 as stated fails: [wide_breakout] opens a long at its close, 105,
    and its high, 130, reaches the take-profit of that long, so the same
    candle closes the trade and emits a row. *)
Lemma entry_candle_can_close :
  triggers_entry sample_times 102 88 (fresh_state 0) wide_breakout /\
  exists st' row,
    process_candle sample_times 102 88 (fresh_state 0) wide_breakout
      = Ok (st', [row]) /\
    trade_executed st' = true /\
    trade_open st' = false /\
    r_entry_time row = Some (isoformat (c_ts wide_breakout)) /\
    r_exit_time row = isoformat (c_ts wide_breakout) /\
    r_exit_reason row = "TP"%string.
Proof.
  split.
  - unfold triggers_entry. repeat split; try reflexivity.
    + vm_compute. discriminate.
    + vm_compute. discriminate.
    + left. vm_compute. discriminate.
  - eexists _, _. split; [vm_compute; reflexivity|].
    repeat split.
Qed.

(** C1, as the script has it. A candle that triggers an entry is handed
    to the management branch in the same iteration, with the trade it
    just opened at its close.  The trade is still open after that candle
    exactly when the candle is before the end of the window, stays below
    (long) or above (short) the take-profit and stays clear of the stop
    as updated by that candle; only then is no row emitted. *)
Theorem entry_candle_is_managed (times : Times) (ll sl : Q) (st : TradeState)
    (cd : Candle) :
  triggers_entry times ll sl st cd ->
  exists st' out stop,
    process_candle times ll sl st cd = Ok (st', out) /\
    trade_executed st' = true /\
    entry_price st' = Some (c_Close cd) /\
    stop_price st' = Some stop /\
    (out = [] <-> trade_open st' = true) /\
    (trade_open st' = true <->
     c_ts cd < t_trade_end times /\
     (((ll <= c_High cd)%Q /\
       (c_High cd < c_Close cd + TAKE_PROFIT_POINTS)%Q /\
       (stop < c_Low cd)%Q) \/
      ((c_High cd < ll)%Q /\
       (c_Close cd - TAKE_PROFIT_POINTS < c_Low cd)%Q /\
       (c_High cd < stop)%Q))).
Proof.
  intros Htr. rewrite (process_candle_entry times ll sl st cd Htr).
  unfold entry_state.
  destruct (Qgeb (c_High cd) ll) eqn:Hl.
  - apply Qgeb_true in Hl.
    rewrite (manage_long_eq times
               (open_trade st "long" (c_ts cd) (c_Close cd)
                  (c_Close cd - TRAIL_DISTANCE_POINTS)%Q)
               cd (c_Close cd) (c_Close cd)
               (c_Close cd - TRAIL_DISTANCE_POINTS)%Q
               eq_refl eq_refl eq_refl eq_refl).
    cbn [mbind result_bind be_triggered open_trade]. cbv zeta.
    set (st1 := open_trade st "long" (c_ts cd) (c_Close cd)
                  (c_Close cd - TRAIL_DISTANCE_POINTS)%Q).
    set (wm := watermark_long (c_High cd) (c_Close cd)).
    set (stop := stop_long false wm (c_Close cd)
                   (c_Close cd - TRAIL_DISTANCE_POINTS)%Q).
    set (be := if be_fires_long false wm (c_Close cd) then true else false).
    pose proof (exit_check_long_none times (c_Close cd) stop cd) as Hiff.
    remember (exit_check_long times (c_Close cd) stop cd) as exit eqn:Hexit.
    try rewrite <- Hexit in Hiff. clear Hexit.
    set (pnl := (fun p : Q => (p - c_Close cd)%Q)).
    destruct (settled_fields st1 wm stop be "long" (c_Close cd) (c_ts cd) exit pnl)
      as (Hstop & Hentry & Hexec & Hnone & Hsome).
    eexists _, _, stop. split; [f_equal; apply surjective_pairing|].
    split; [exact Hexec|]. split; [exact Hentry|]. split; [exact Hstop|].
    cbn [stamp fst snd] in Hnone, Hsome |- *.
    destruct exit as [[p reason]|].
    + destruct (Hsome p reason eq_refl) as ([row [Hout _]] & Hclosed).
      rewrite Hout, Hclosed. split; [split; discriminate|].
      split; [discriminate|].
      intros (Hts & [(_ & H1 & H2)|(H1 & _)]); [|lra].
      assert (H : @None (Q * string) = Some (p, reason)); [|discriminate].
      symmetry. apply Hiff. auto.
    + destruct (Hnone eq_refl) as (Hout & Hopen).
      rewrite Hout, Hopen. split; [split; reflexivity|].
      split; [|reflexivity]. intros _.
      destruct (proj1 Hiff eq_refl) as (H1 & H2 & H3). auto.
  - apply Qgeb_false in Hl.
    rewrite (manage_short_eq times
               (open_trade st "short" (c_ts cd) (c_Close cd)
                  (c_Close cd + TRAIL_DISTANCE_POINTS)%Q)
               cd (c_Close cd) (c_Close cd)
               (c_Close cd + TRAIL_DISTANCE_POINTS)%Q
               eq_refl eq_refl eq_refl eq_refl).
    cbn [mbind result_bind be_triggered open_trade]. cbv zeta.
    set (st1 := open_trade st "short" (c_ts cd) (c_Close cd)
                  (c_Close cd + TRAIL_DISTANCE_POINTS)%Q).
    set (wm := watermark_short (c_Low cd) (c_Close cd)).
    set (stop := stop_short false wm (c_Close cd)
                   (c_Close cd + TRAIL_DISTANCE_POINTS)%Q).
    set (be := if be_fires_short false wm (c_Close cd) then true else false).
    pose proof (exit_check_short_none times (c_Close cd) stop cd) as Hiff.
    remember (exit_check_short times (c_Close cd) stop cd) as exit eqn:Hexit.
    try rewrite <- Hexit in Hiff. clear Hexit.
    set (pnl := (fun p : Q => (c_Close cd - p)%Q)).
    destruct (settled_fields st1 wm stop be "short" (c_Close cd) (c_ts cd) exit pnl)
      as (Hstop & Hentry & Hexec & Hnone & Hsome).
    eexists _, _, stop. split; [f_equal; apply surjective_pairing|].
    split; [exact Hexec|]. split; [exact Hentry|]. split; [exact Hstop|].
    cbn [stamp fst snd] in Hnone, Hsome |- *.
    destruct exit as [[p reason]|].
    + destruct (Hsome p reason eq_refl) as ([row [Hout _]] & Hclosed).
      rewrite Hout, Hclosed. split; [split; discriminate|].
      split; [discriminate|].
      intros (Hts & [(H1 & _)|(_ & H1 & H2)]); [lra|].
      assert (H : @None (Q * string) = Some (p, reason)); [|discriminate].
      symmetry. apply Hiff. auto.
    + destruct (Hnone eq_refl) as (Hout & Hopen).
      rewrite Hout, Hopen. split; [split; reflexivity|].
      split; [|reflexivity]. intros _.
      destruct (proj1 Hiff eq_refl) as (H1 & H2 & H3). auto.
Qed.

Lemma entry_candle_is_managed_witness :
  exists st' out stop,
    process_candle sample_times 102 88 (fresh_state 0) quiet_breakout
      = Ok (st', out) /\
    trade_executed st' = true /\
    entry_price st' = Some (c_Close quiet_breakout) /\
    stop_price st' = Some stop /\
    (out = [] <-> trade_open st' = true) /\
    (trade_open st' = true <->
     c_ts quiet_breakout < t_trade_end sample_times /\
     (((102 <= c_High quiet_breakout)%Q /\
       (c_High quiet_breakout < c_Close quiet_breakout + TAKE_PROFIT_POINTS)%Q /\
       (stop < c_Low quiet_breakout)%Q) \/
      ((c_High quiet_breakout < 102)%Q /\
       (c_Close quiet_breakout - TAKE_PROFIT_POINTS < c_Low quiet_breakout)%Q /\
       (c_High quiet_breakout < stop)%Q))).
Proof.
  apply (entry_candle_is_managed sample_times 102 88 (fresh_state 0)
           quiet_breakout).
  unfold triggers_entry. split; [reflexivity|]. split; [reflexivity|].
  split; [split; vm_compute; discriminate|].
  left. vm_compute. discriminate.
Defined.

(** ** Exit reasons *)

Lemma manage_emits (times : Times) (st st2 : TradeState) (cd : Candle)
    (out : list TradeRow) (row : TradeRow) :
  manage_open_trade times st cd = Ok (st2, out) ->
  In row out ->
  exists r, r_exit_reason row = exit_label r /\ reason_holds r times cd st2 row.
Proof.
  unfold manage_open_trade.
  destruct (entry_price st) as [e|] eqn:He; [|discriminate].
  cbn [as_float mbind result_bind].
  destruct (direction st) as [dir|]; [|intros [= <- <-] []].
  destruct (String.eqb dir "long") eqn:Elong.
  - apply String.eqb_eq in Elong. subst dir.
    destruct (watermark_price st) as [w|]; [|discriminate].
    destruct (stop_price st) as [s|]; [|discriminate].
    cbn [as_float mbind result_bind].
    set (wm := watermark_long (c_High cd) w).
    set (stop := stop_long (be_triggered st) wm e s).
    set (be := if be_fires_long (be_triggered st) wm e then true
               else be_triggered st).
    destruct (exit_check_long times e stop cd) as [[p reason]|] eqn:Hexit;
      cbn [settle]; intros [= <- <-]; [|intros []].
    intros [<-|[]]. cbn [make_row r_exit_reason].
    destruct (exit_check_long_inv times e stop cd p reason Hexit)
      as [(-> & -> & Hc)|[(-> & -> & Hc)|(-> & -> & Hc)]].
    + exists TakeProfit. split; [reflexivity|]. exists e. split; [exact He|].
      left. cbn. auto.
    + exists TrailingStop. split; [reflexivity|]. exists stop.
      split; [reflexivity|]. split; [reflexivity|]. left. cbn. auto.
    + exists EndOfDay. split; [reflexivity|]. cbn. auto.
  - destruct (String.eqb dir "short") eqn:Eshort; [|intros [= <- <-] []].
    apply String.eqb_eq in Eshort. subst dir.
    destruct (watermark_price st) as [w|]; [|discriminate].
    destruct (stop_price st) as [s|]; [|discriminate].
    cbn [as_float mbind result_bind].
    set (wm := watermark_short (c_Low cd) w).
    set (stop := stop_short (be_triggered st) wm e s).
    set (be := if be_fires_short (be_triggered st) wm e then true
               else be_triggered st).
    destruct (exit_check_short times e stop cd) as [[p reason]|] eqn:Hexit;
      cbn [settle]; intros [= <- <-]; [|intros []].
    intros [<-|[]]. cbn [make_row r_exit_reason].
    destruct (exit_check_short_inv times e stop cd p reason Hexit)
      as [(-> & -> & Hc)|[(-> & -> & Hc)|(-> & -> & Hc)]].
    + exists TakeProfit. split; [reflexivity|]. exists e. split; [exact He|].
      right. cbn. auto.
    + exists TrailingStop. split; [reflexivity|]. exists stop.
      split; [reflexivity|]. split; [reflexivity|]. right. cbn. auto.
    + exists EndOfDay. split; [reflexivity|]. cbn. auto.
Qed.

(** C7. Every row a candle emits carries one of the three reasons: the
    take-profit label when the candle reached entry plus or minus the
    take-profit distance, filled there; the trailing-stop label when it
    reached the stop, filled there; the end-of-day label when it is at or
    past the end of the window, filled at its close. *)
Theorem exit_reason_known (times : Times) (ll sl : Q) (st st' : TradeState)
    (cd : Candle) (out : list TradeRow) (row : TradeRow) :
  process_candle times ll sl st cd = Ok (st', out) ->
  In row out ->
  exists r, r_exit_reason row = exit_label r /\ reason_holds r times cd st' row.
Proof.
  unfold process_candle.
  destruct (negb _); [intros [= <- <-] []|].
  destruct (trade_open (entry_logic times ll sl st cd)); [|intros [= <- <-] []].
  destruct (manage_open_trade times (entry_logic times ll sl st cd) cd)
    as [[st2 o2]|] eqn:Hm; [|discriminate].
  cbn [mbind result_bind]. intros [= <- <-] Hin.
  destruct (manage_emits times _ st2 cd o2 row Hm Hin) as (r & Hr & Hh).
  exists r. split; [exact Hr|].
  destruct r; exact Hh.
Qed.

Lemma exit_reason_known_witness :
  exists r,
    r_exit_reason wide_breakout_row = exit_label r /\
    reason_holds r sample_times wide_breakout (fst wide_breakout_exit)
      wide_breakout_row.
Proof.
  apply (exit_reason_known sample_times 102 88 (fresh_state 0)
           (fst wide_breakout_exit) wide_breakout (snd wide_breakout_exit)
           wide_breakout_row).
  - vm_compute. reflexivity.
  - left. reflexivity.
Defined.

(** ** Re-running over candles already processed *)

Lemma filter_none {A : Type} (f : A -> bool) (l : list A) :
  (forall x, In x l -> f x = false) -> List.filter f l = [].
Proof.
  induction l as [|a l IH]; intros H; [reflexivity|].
  cbn [List.filter]. rewrite (H a (or_introl eq_refl)).
  apply IH. intros x Hx. apply H. right. exact Hx.
Qed.

Lemma select_candles_none (times : Times) (st : TradeState)
    (today_df : list Candle) (x : tstext) (t : datetime) :
  last_processed_ts st = Some x ->
  fromisoformat x = Some t ->
  (forall cd, In cd today_df -> c_ts cd <= t) ->
  select_candles times st today_df = [].
Proof.
  intros Hl Hx Hall. unfold select_candles. rewrite Hl.
  destruct x as [t'|s]; [|discriminate]. cbn in Hx. injection Hx as ->.
  cbn [nonempty fromisoformat]. apply filter_none.
  intros cd Hin. apply Z.ltb_ge. apply Hall, Hin.
Qed.

(** C5. When the stored mark of the last processed candle parses and no
    candle of the frame is later than it, a call changes nothing in the
    state and emits no row. *)
Theorem advance_idempotent (times : Times) (st : TradeState)
    (today_df : list Candle) (x : tstext) (t : datetime) :
  last_processed_ts st = Some x ->
  fromisoformat x = Some t ->
  (forall cd, In cd today_df -> c_ts cd <= t) ->
  advance times st today_df = Ok (st, []).
Proof.
  intros Hl Hx Hall. unfold advance.
  destruct (compute_opening_range _ _ _) as [[hi lo]|]; [|reflexivity].
  rewrite (select_candles_none times st today_df x t Hl Hx Hall).
  reflexivity.
Qed.

Lemma advance_idempotent_witness :
  advance sample_times open_long_state [candle 34200 100 101 99 100; quiet_breakout]
    = Ok (open_long_state, []).
Proof.
  apply (advance_idempotent sample_times open_long_state
           [candle 34200 100 101 99 100; quiet_breakout]
           (IsoText 36000) 36000).
  - reflexivity.
  - reflexivity.
  - intros cd [<-|[<-|[]]]; vm_compute; discriminate.
Defined.

(** ** The weekend guard *)

(** C8, as the script has it. On a Saturday or a Sunday a run looks at
    no candle and leaves the state files, the trade logs, the summary
    and the chart export as they are; it makes sure the reports
    directory exists and overwrites the snapshot with the inactive
    status and the reason weekend. *)
Theorem weekend_run_only_writes_snapshot (now : datetime) (df : list Candle)
    (fs : Files) :
  weekday now = 5 \/ weekday now = 6 ->
  exists fs',
    main now df fs = Ok fs' /\
    main now [] fs = Ok fs' /\
    latest_json fs' = Some (StatusOnly "inactive" "weekend" now) /\
    reports_dir fs' = true /\
    state_files fs' = state_files fs /\
    trade_logs fs' = trade_logs fs /\
    summary_csv fs' = summary_csv fs /\
    summary_json fs' = summary_json fs /\
    intraday_json fs' = intraday_json fs.
Proof.
  intros Hw. unfold main.
  assert (H : (4 <? weekday now) = true) by (apply Z.ltb_lt; lia).
  rewrite H. eexists. repeat split.
Qed.

Lemma weekend_run_only_writes_snapshot_witness :
  exists fs',
    main saturday_10h [wide_breakout] empty_files = Ok fs' /\
    main saturday_10h [] empty_files = Ok fs' /\
    latest_json fs' = Some (StatusOnly "inactive" "weekend" saturday_10h) /\
    reports_dir fs' = true /\
    state_files fs' = state_files empty_files /\
    trade_logs fs' = trade_logs empty_files /\
    summary_csv fs' = summary_csv empty_files /\
    summary_json fs' = summary_json empty_files /\
    intraday_json fs' = intraday_json empty_files.
Proof.
  apply (weekend_run_only_writes_snapshot saturday_10h [wide_breakout]
           empty_files).
  left. reflexivity.
Defined.

(** C8 as stated fails: on a Saturday the run writes the snapshot file,
    which did not exist, and creates the reports directory. *)
Lemma weekend_run_writes_snapshot :
  weekday saturday_10h = 5 /\
  exists fs',
    main saturday_10h [] empty_files = Ok fs' /\
    latest_json empty_files = None /\
    latest_json fs' = Some (StatusOnly "inactive" "weekend" saturday_10h) /\
    reports_dir empty_files = false /\
    reports_dir fs' = true /\
    fs' <> empty_files.
Proof.
  split; [reflexivity|]. eexists. split; [reflexivity|].
  repeat split. intros H. apply (f_equal reports_dir) in H. discriminate.
Qed.

(** ** The rolling summary *)

Lemma Forall_insert_by_date (P : SummaryRow -> Prop) (r : SummaryRow)
    (l : list SummaryRow) :
  P r -> Forall P l -> Forall P (insert_by_date r l).
Proof.
  intros Hr. induction 1 as [|x l Hx Hl IH]; cbn [insert_by_date].
  - constructor; [exact Hr|constructor].
  - destruct (s_date x <=? s_date r); repeat constructor; assumption.
Qed.

Lemma Forall_sort_by_date (P : SummaryRow -> Prop) (l : list SummaryRow) :
  Forall P l -> Forall P (sort_by_date l).
Proof.
  unfold sort_by_date.
  assert (H : forall acc, Forall P acc -> Forall P l ->
            Forall P (fold_left (fun a r => insert_by_date r a) l acc)).
  { induction l as [|x l IH]; intros acc Hacc Hl; [exact Hacc|].
    inversion Hl; subst. cbn [fold_left]. apply IH; [|assumption].
    apply Forall_insert_by_date; assumption. }
  apply H. constructor.
Qed.

Lemma Forall_drop_duplicates_last (P : SummaryRow -> Prop) (l : list SummaryRow) :
  Forall P l -> Forall P (drop_duplicates_last l).
Proof.
  induction 1 as [|x l Hx Hl IH]; cbn [drop_duplicates_last]; [constructor|].
  destruct (existsb _ l); [exact IH|]. constructor; assumption.
Qed.

Lemma Forall_tail_rows (P : SummaryRow -> Prop) (n : nat) (l : list SummaryRow) :
  Forall P l -> Forall P (tail_rows n l).
Proof.
  unfold tail_rows. generalize (length l - n)%nat as k.
  intros k H. revert k. induction H as [|x l Hx Hl IH]; intros [|k]; cbn [skipn];
    try constructor; auto.
Qed.

Lemma length_insert_by_date (r : SummaryRow) (l : list SummaryRow) :
  length (insert_by_date r l) = S (length l).
Proof.
  induction l as [|x l IH]; cbn [insert_by_date]; [reflexivity|].
  destruct (s_date x <=? s_date r); cbn [length]; [rewrite IH|]; reflexivity.
Qed.

Lemma length_sort_by_date (l : list SummaryRow) :
  length (sort_by_date l) = length l.
Proof.
  unfold sort_by_date.
  assert (H : forall acc,
            length (fold_left (fun a r => insert_by_date r a) l acc)
            = (length l + length acc)%nat).
  { induction l as [|x l IH]; intros acc; [reflexivity|].
    cbn [fold_left length]. rewrite IH, length_insert_by_date. lia. }
  rewrite H. cbn. lia.
Qed.

Lemma drop_duplicates_last_nonempty (l : list SummaryRow) :
  l <> [] -> drop_duplicates_last l <> [].
Proof.
  induction l as [|x l IH]; intros Hne; [contradiction|].
  cbn [drop_duplicates_last].
  destruct (existsb _ l) eqn:E; [|discriminate].
  apply IH. intros ->. discriminate.
Qed.

Lemma summary_frame_nonempty (cur : option (list SummaryRow)) (row : TradeRow) :
  (0 < length (summary_frame cur row))%nat.
Proof.
  unfold summary_frame.
  set (cur1 := match cur with
               | Some rows => rows ++ [new_summary_row row]
               | None => [new_summary_row row]
               end).
  assert (H1 : (0 < length cur1)%nat).
  { unfold cur1. destruct cur; [rewrite length_app|]; cbn; lia. }
  set (cur2 := drop_duplicates_last (sort_by_date cur1)).
  assert (H2 : (0 < length cur2)%nat).
  { assert (Hne : cur2 <> []).
    { apply drop_duplicates_last_nonempty. intros E.
      apply (f_equal (@length _)) in E. rewrite length_sort_by_date in E.
      cbn in E. lia. }
    destruct cur2; [contradiction|cbn; lia]. }
  destruct (10 <? length cur2)%nat eqn:E; [|exact H2].
  apply Nat.ltb_lt in E. unfold tail_rows. rewrite length_skipn. lia.
Qed.

Lemma summary_frame_marked (cur : option (list SummaryRow)) (row : TradeRow) :
  (forall rows, cur = Some rows -> Forall marked rows) ->
  Forall marked (summary_frame cur row).
Proof.
  intros Hcur. unfold summary_frame.
  assert (Hnew : marked (new_summary_row row)) by reflexivity.
  set (cur1 := match cur with
               | Some rows => rows ++ [new_summary_row row]
               | None => [new_summary_row row]
               end).
  assert (H1 : Forall marked cur1).
  { unfold cur1. destruct cur as [rows|].
    - apply Forall_app. split; [apply Hcur; reflexivity|].
      constructor; [exact Hnew|constructor].
    - constructor; [exact Hnew|constructor]. }
  assert (H2 : Forall marked (drop_duplicates_last (sort_by_date cur1))).
  { apply Forall_drop_duplicates_last, Forall_sort_by_date, H1. }
  destruct (10 <? _)%nat; [apply Forall_tail_rows|]; exact H2.
Qed.

Lemma fold_left_Qplus (l : list Q) (a : Q) :
  (fold_left Qplus l a == a + fold_left Qplus l 0)%Q.
Proof.
  revert a. induction l as [|x l IH]; intros a; cbn [fold_left].
  - ring.
  - rewrite (IH (a + x)%Q), (IH (0 + x)%Q). ring.
Qed.

(** Over marked rows the sum of the win column counts the rows with
    strictly positive points. *)
Lemma sum_of_wins (l : list SummaryRow) :
  Forall marked l ->
  (Qsum (map (fun r => inject_Z (s_win r)) l)
   == inject_Z (Z.of_nat (count_positive l)))%Q.
Proof.
  unfold Qsum, count_positive.
  induction 1 as [|x l Hx Hl IH]; [reflexivity|].
  cbn [map fold_left List.filter]. rewrite fold_left_Qplus, IH.
  rewrite Hx. destruct (Qgtb (s_pnl_points x) 0); cbn [length].
  - rewrite Nat2Z.inj_succ, <- Z.add_1_l, inject_Z_plus. ring.
  - ring.
Qed.

(** C10. The row added to the summary is marked as a win exactly when
    its points are strictly positive, so a trade with zero points is
    marked 0; and the win rate written with the summary is the number
    of rows with strictly positive points over the number of rows, in
    which a zero-point trade counts as a loss. *)
Theorem win_iff_positive_pnl (cur : option (list SummaryRow)) (row : TradeRow) :
  (forall rows, cur = Some rows -> Forall marked rows) ->
  (s_win (new_summary_row row) = 1 <-> (0 < r_pnl_points row)%Q) /\
  ((r_pnl_points row == 0)%Q -> s_win (new_summary_row row) = 0) /\
  Forall marked (summary_frame cur row) /\
  exists q,
    winrate (summary_of (summary_frame cur row)) = Some q /\
    (q == inject_Z (Z.of_nat (count_positive (summary_frame cur row)))
          / inject_Z (Z.of_nat (length (summary_frame cur row))))%Q.
Proof.
  intros Hcur.
  assert (Hwin : s_win (new_summary_row row)
                 = if Qgtb (r_pnl_points row) 0 then 1 else 0) by reflexivity.
  split; [|split; [|split]].
  - rewrite Hwin. destruct (Qgtb (r_pnl_points row) 0) eqn:E.
    + apply Qgtb_true in E. split; auto.
    + split; [discriminate|]. intros H. apply Qgtb_true in H. congruence.
  - intros H0. rewrite Hwin. destruct (Qgtb (r_pnl_points row) 0) eqn:E;
      [|reflexivity].
    apply Qgtb_true in E. lra.
  - apply summary_frame_marked, Hcur.
  - unfold summary_of. cbn [winrate].
    pose proof (summary_frame_nonempty cur row) as Hlen.
    apply Nat.ltb_lt in Hlen. rewrite Hlen.
    eexists. split; [reflexivity|].
    rewrite (sum_of_wins _ (summary_frame_marked cur row Hcur)). reflexivity.
Qed.

Lemma win_iff_positive_pnl_witness :
  (s_win (new_summary_row scratch_trade) = 1 <->
   (0 < r_pnl_points scratch_trade)%Q) /\
  ((r_pnl_points scratch_trade == 0)%Q ->
   s_win (new_summary_row scratch_trade) = 0) /\
  Forall marked (summary_frame (Some []) scratch_trade) /\
  exists q,
    winrate (summary_of (summary_frame (Some []) scratch_trade)) = Some q /\
    (q == inject_Z (Z.of_nat (count_positive (summary_frame (Some []) scratch_trade)))
          / inject_Z (Z.of_nat (length (summary_frame (Some []) scratch_trade))))%Q.
Proof.
  apply (win_iff_positive_pnl (Some []) scratch_trade).
  intros rows [= <-]. constructor.
Defined.

(** ** [main] and the state it saves *)

Lemma record_trades_keeps_states (now : datetime) (out : list TradeRow) (fs : Files) :
  state_files (record_trades now out fs) = state_files fs.
Proof.
  unfold record_trades. revert fs.
  induction out as [|row out IH]; intros fs; [reflexivity|].
  cbn [fold_left]. rewrite IH. reflexivity.
Qed.

(** On a trading day with data, the state [main] saves for the date is
    the one [advance] computes from the state it loaded. *)
Lemma main_saves_advance (now : datetime) (df : list Candle) (fs fs' : Files) :
  weekday now <= 4 ->
  df <> [] ->
  main now df fs = Ok fs' ->
  exists st1 out,
    advance (session_times now) (load_state now fs)
      (List.filter (fun cd => replace_time now 0 0 <=? c_ts cd) df)
      = Ok (st1, out) /\
    state_files fs' = <[strftime_date now := st1]> (state_files fs) /\
    trade_logs fs' = trade_logs (record_trades now out (ensure_dirs fs)).
Proof.
  intros Hw Hdf. unfold main, advance.
  assert (H : (4 <? weekday now) = false) by (apply Z.ltb_ge; exact Hw).
  rewrite H. destruct df as [|cd0 df0]; [contradiction|].
  change (load_state now (ensure_dirs fs)) with (load_state now fs).
  destruct (compute_opening_range _ _ _) as [[hi lo]|].
  - destruct (process_candles _ _ _ _ _) as [[st1 out]|]; [|discriminate].
    cbn [mbind result_bind].
    destruct (trade_view st1 _) as [tv|]; [|discriminate].
    cbn [mbind result_bind]. intros [= <-].
    exists st1, out. split; [reflexivity|].
    cbn [state_files trade_logs write_intraday save_state write_latest].
    rewrite record_trades_keeps_states. split; reflexivity.
  - intros [= <-]. eexists _, []. split; [reflexivity|]. split; reflexivity.
Qed.

(** A run that finds no candle later than the stored mark leaves the
    state file, the trade logs and the summary as they are. *)
Lemma main_reprocessing (now : datetime) (df : list Candle) (fs fs' : Files)
    (st : TradeState) (x : tstext) (t : datetime) :
  state_files fs !! strftime_date now = Some st ->
  last_processed_ts st = Some x ->
  fromisoformat x = Some t ->
  (forall cd, In cd df -> c_ts cd <= t) ->
  main now df fs = Ok fs' ->
  state_files fs' = state_files fs /\
  trade_logs fs' = trade_logs fs /\
  summary_csv fs' = summary_csv fs /\
  summary_json fs' = summary_json fs.
Proof.
  intros Hst Hl Hx Hall. unfold main.
  destruct (4 <? weekday now); [intros [= <-]; repeat split|].
  destruct df as [|cd0 df0]; [intros [= <-]; repeat split|].
  assert (Hload : load_state now (ensure_dirs fs) = st).
  { unfold load_state. cbn [state_files ensure_dirs]. rewrite Hst. reflexivity. }
  rewrite Hload.
  set (today_df := List.filter _ (cd0 :: df0)).
  assert (Hall' : forall cd, In cd today_df -> c_ts cd <= t).
  { intros cd Hin. apply filter_In in Hin as [Hin _]. apply Hall, Hin. }
  destruct (compute_opening_range _ _ _) as [[hi lo]|].
  - rewrite (select_candles_none _ st today_df x t Hl Hx Hall').
    cbn [process_candles mbind result_bind record_trades fold_left].
    destruct (trade_view st today_df) as [tv|]; [|discriminate].
    cbn [mbind result_bind]. intros [= <-].
    cbn [state_files trade_logs summary_csv summary_json write_intraday
           save_state write_latest ensure_dirs].
    rewrite (insert_id _ _ _ Hst). repeat split.
  - intros [= <-].
    cbn [state_files trade_logs summary_csv summary_json
           save_state write_latest ensure_dirs].
    rewrite (insert_id _ _ _ Hst). repeat split.
Qed.

(** * Further properties of the script *)

(** ** Session times *)

Lemma same_day (q r : Z) : 0 <= r < 86400 -> (q * 86400 + r) / 86400 = q.
Proof.
  intros Hr. rewrite Z.add_comm, Z.div_add by lia.
  rewrite Z.div_small by lia. reflexivity.
Qed.

(** X1. The session times of a day are ordered, open 9:30 < end of the
    opening range 9:45 = start of the trade window < end of the trade
    window, which is the close at 16:00; they lie on the day of the clock
    reading and depend on nothing but that day. *)
Theorem session_times_ordered (d : datetime) :
  t_open (session_times d) = strftime_date d * 86400 + 34200 /\
  t_orb_end (session_times d) = strftime_date d * 86400 + 35100 /\
  t_trade_start (session_times d) = t_orb_end (session_times d) /\
  t_trade_end (session_times d) = strftime_date d * 86400 + 57600 /\
  t_open (session_times d) < t_orb_end (session_times d) /\
  t_trade_start (session_times d) < t_trade_end (session_times d) /\
  strftime_date (t_open (session_times d)) = strftime_date d /\
  strftime_date (t_trade_end (session_times d)) = strftime_date d /\
  (forall d', strftime_date d' = strftime_date d ->
              session_times d' = session_times d).
Proof.
  unfold session_times, replace_time, timedelta_minutes, strftime_date,
    OPENING_RANGE_MINUTES, TRADING_WINDOW_MINUTES.
  cbn [t_open t_orb_end t_trade_start t_trade_end].
  set (q := d / 86400).
  assert (Hmin : Z.min (q * 86400 + 9 * 3600 + 30 * 60 + 390 * 60)
                       (q * 86400 + 16 * 3600 + 0 * 60)
                 = q * 86400 + 57600) by lia.
  rewrite Hmin.
  split; [lia|]. split; [lia|]. split; [reflexivity|]. split; [reflexivity|].
  split; [lia|]. split; [lia|].
  split; [|split].
  - replace (q * 86400 + 9 * 3600 + 30 * 60) with (q * 86400 + 34200) by lia.
    apply same_day. lia.
  - apply same_day. lia.
  - intros d' Hd. rewrite Hd. fold q. rewrite Hmin. reflexivity.
Qed.

(** ** Opening range *)

Lemma pymax_ge_r (a b : Q) : (b <= pymax a b)%Q.
Proof.
  unfold pymax. destruct (Qgtb b a) eqn:E; [lra|].
  unfold Qgtb in E. apply negb_false_iff in E. apply Qle_bool_iff in E. exact E.
Qed.

Lemma pymin_le_r (a b : Q) : (pymin a b <= b)%Q.
Proof.
  unfold pymin. destruct (Qltb b a) eqn:E; [lra|].
  unfold Qltb in E. apply negb_false_iff in E. apply Qle_bool_iff in E. exact E.
Qed.

Lemma pymax_choice (a b : Q) : pymax a b = a \/ pymax a b = b.
Proof. unfold pymax. destruct (Qgtb b a); auto. Qed.

Lemma pymin_choice (a b : Q) : pymin a b = a \/ pymin a b = b.
Proof. unfold pymin. destruct (Qltb b a); auto. Qed.

Lemma col_max_spec (xs : list Q) (x : Q) :
  (forall y, In y (x :: xs) -> (y <= col_max x xs)%Q) /\ In (col_max x xs) (x :: xs).
Proof.
  unfold col_max. revert x. induction xs as [|z xs IH]; intros x.
  - cbn. split; [intros y [<-|[]]; lra|auto].
  - cbn [fold_left]. destruct (IH (pymax x z)) as [Hge Hin]. split.
    + intros y [<-|[<-|Hy]].
      * eapply Qle_trans; [apply (pymax_ge_l x z)|]. apply Hge. left. reflexivity.
      * eapply Qle_trans; [apply (pymax_ge_r x z)|]. apply Hge. left. reflexivity.
      * apply Hge. right. exact Hy.
    + destruct Hin as [Hin|Hin].
      * destruct (pymax_choice x z) as [E|E].
        -- left. rewrite <- Hin. symmetry. exact E.
        -- right. left. rewrite <- Hin. symmetry. exact E.
      * right. right. exact Hin.
Qed.

Lemma col_min_spec (xs : list Q) (x : Q) :
  (forall y, In y (x :: xs) -> (col_min x xs <= y)%Q) /\ In (col_min x xs) (x :: xs).
Proof.
  unfold col_min. revert x. induction xs as [|z xs IH]; intros x.
  - cbn. split; [intros y [<-|[]]; lra|auto].
  - cbn [fold_left]. destruct (IH (pymin x z)) as [Hle Hin]. split.
    + intros y [<-|[<-|Hy]].
      * eapply Qle_trans; [|apply (pymin_le_l x z)]. apply Hle. left. reflexivity.
      * eapply Qle_trans; [|apply (pymin_le_r x z)]. apply Hle. left. reflexivity.
      * apply Hle. right. exact Hy.
    + destruct Hin as [Hin|Hin].
      * destruct (pymin_choice x z) as [E|E].
        -- left. rewrite <- Hin. symmetry. exact E.
        -- right. left. rewrite <- Hin. symmetry. exact E.
      * right. right. exact Hin.
Qed.

Lemma in_orb_window (df : list Candle) (o e : datetime) (cd : Candle) :
  In cd (List.filter (fun cd => (o <=? c_ts cd) && (c_ts cd <? e)) df) <->
  In cd df /\ o <= c_ts cd < e.
Proof.
  rewrite filter_In, andb_true_iff, Z.leb_le, Z.ltb_lt. tauto.
Qed.

(** The range bounds every candle of the opening window, and that window
    is not empty. *)
Lemma opening_range_bounds (df : list Candle) (o e : datetime) (hi lo : Q) :
  compute_opening_range df o e = Some (hi, lo) ->
  (forall cd, In cd df -> o <= c_ts cd < e ->
              (c_High cd <= hi)%Q /\ (lo <= c_Low cd)%Q) /\
  (exists cd, In cd df /\ o <= c_ts cd < e).
Proof.
  unfold compute_opening_range.
  pose proof (in_orb_window df o e) as Hin.
  destruct (List.filter _ df) as [|cd0 rest]; [discriminate|].
  intros [= <- <-].
  destruct (col_max_spec (map c_High rest) (c_High cd0)) as [Hge _].
  destruct (col_min_spec (map c_Low rest) (c_Low cd0)) as [Hle _].
  change (c_High cd0 :: map c_High rest) with (map c_High (cd0 :: rest)) in Hge.
  change (c_Low cd0 :: map c_Low rest) with (map c_Low (cd0 :: rest)) in Hle.
  split.
  - intros cd Hcd Hw.
    assert (Hf : In cd (cd0 :: rest)) by (apply Hin; auto).
    split; [apply Hge|apply Hle]; apply in_map, Hf.
  - exists cd0. apply Hin. left. reflexivity.
Qed.

(** X2. The opening range is missing exactly when no candle of the frame
    lies in the opening window; otherwise its high is the high of a
    candle of the window and bounds the high of every other, and its low
    is the low of a candle of the window and bounds every other low. *)
Theorem opening_range_spec (df : list Candle) (o e : datetime) :
  (compute_opening_range df o e = None <->
   forall cd, In cd df -> ~ (o <= c_ts cd < e)) /\
  (forall hi lo, compute_opening_range df o e = Some (hi, lo) ->
     (forall cd, In cd df -> o <= c_ts cd < e ->
                 (c_High cd <= hi)%Q /\ (lo <= c_Low cd)%Q) /\
     (exists cd, In cd df /\ o <= c_ts cd < e /\ c_High cd = hi) /\
     (exists cd, In cd df /\ o <= c_ts cd < e /\ c_Low cd = lo)).
Proof.
  split.
  - unfold compute_opening_range.
    pose proof (in_orb_window df o e) as Hin.
    destruct (List.filter _ df) as [|cd0 rest].
    + split; [|reflexivity]. intros _ cd Hcd Hw.
      apply (proj2 (Hin cd)). auto.
    + split; [discriminate|]. intros H. exfalso.
      destruct (proj1 (Hin cd0) (or_introl eq_refl)) as [Hd Hw].
      exact (H cd0 Hd Hw).
  - intros hi lo Horb.
    split; [apply (opening_range_bounds df o e hi lo Horb)|].
    revert Horb. unfold compute_opening_range.
    pose proof (in_orb_window df o e) as Hin.
    destruct (List.filter _ df) as [|cd0 rest]; [discriminate|].
    intros [= <- <-].
    destruct (col_max_spec (map c_High rest) (c_High cd0)) as [_ Hmax].
    destruct (col_min_spec (map c_Low rest) (c_Low cd0)) as [_ Hmin].
    change (c_High cd0 :: map c_High rest) with (map c_High (cd0 :: rest))
      in Hmax.
    change (c_Low cd0 :: map c_Low rest) with (map c_Low (cd0 :: rest))
      in Hmin.
    split.
    + apply in_map_iff in Hmax as (cd & Heq & Hcd).
      exists cd. destruct (proj1 (Hin cd) Hcd). auto.
    + apply in_map_iff in Hmin as (cd & Heq & Hcd).
      exists cd. destruct (proj1 (Hin cd) Hcd). auto.
Qed.

(** X3. When the candles of the opening window have their low at or
    below their high, the short level is strictly below the long
    level. *)
Theorem levels_do_not_cross (df : list Candle) (o e : datetime) (hi lo : Q) :
  compute_opening_range df o e = Some (hi, lo) ->
  (forall cd, In cd df -> o <= c_ts cd < e -> (c_Low cd <= c_High cd)%Q) ->
  (lo <= hi)%Q /\ (lo - OFFSET_POINTS < hi + OFFSET_POINTS)%Q.
Proof.
  intros Horb Hwf.
  destruct (opening_range_bounds df o e hi lo Horb)
    as (Hall & (cd & Hcd & Hw)).
  destruct (Hall cd Hcd Hw) as [H1 H2]. specialize (Hwf cd Hcd Hw).
  unfold OFFSET_POINTS. split; lra.
Qed.

Lemma levels_do_not_cross_witness :
  (99 <= 101)%Q /\ (99 - OFFSET_POINTS < 101 + OFFSET_POINTS)%Q.
Proof.
  apply (levels_do_not_cross [candle 34200 100 101 99 100] 34200 35100 101 99).
  - reflexivity.
  - intros cd [<-|[]] _. vm_compute. discriminate.
Defined.

(** ** State files and trade logs *)

(** X4. A saved state is the one loaded back for any clock reading of
    the same day; saving for one day changes what is loaded for no
    other day and touches no other file; a day with no state file loads
    the fresh state of that day. *)
Theorem state_round_trip (st : TradeState) (d : datetime) (fs : Files) :
  (forall d', strftime_date d' = strftime_date d ->
              load_state d' (save_state st d fs) = st) /\
  (forall d', strftime_date d' <> strftime_date d ->
              load_state d' (save_state st d fs) = load_state d' fs) /\
  (state_files fs !! strftime_date d = None ->
   load_state d fs = fresh_state (strftime_date d)) /\
  trade_logs (save_state st d fs) = trade_logs fs /\
  latest_json (save_state st d fs) = latest_json fs /\
  summary_csv (save_state st d fs) = summary_csv fs /\
  summary_json (save_state st d fs) = summary_json fs.
Proof.
  split; [|split; [|split]].
  - intros d' Hd. unfold load_state, save_state. cbn [state_files].
    rewrite Hd, lookup_insert_eq. reflexivity.
  - intros d' Hd. unfold load_state, save_state. cbn [state_files].
    rewrite lookup_insert_ne by congruence. reflexivity.
  - intros Hnone. unfold load_state. rewrite Hnone. reflexivity.
  - repeat split.
Qed.

Lemma append_trade_log_lookup (now : datetime) (row : TradeRow) (fs : Files) :
  trade_logs (append_trade_log now row fs) !! strftime_date now
  = Some (default [] (trade_logs fs !! strftime_date now) ++ [row]).
Proof.
  unfold append_trade_log. cbn [trade_logs]. rewrite lookup_insert_eq.
  destruct (trade_logs fs !! strftime_date now); reflexivity.
Qed.

Lemma record_trades_log (now : datetime) (out : list TradeRow) (fs : Files) :
  out <> [] ->
  trade_logs (record_trades now out fs) !! strftime_date now
  = Some (default [] (trade_logs fs !! strftime_date now) ++ out).
Proof.
  unfold record_trades. revert fs.
  induction out as [|row out IH]; intros fs Hne; [contradiction|].
  cbn [fold_left]. destruct out as [|row2 out].
  - cbn [fold_left update_summary trade_logs]. apply append_trade_log_lookup.
  - rewrite IH by discriminate.
    cbn [update_summary trade_logs]. rewrite append_trade_log_lookup.
    unfold default. cbn [from_option id]. rewrite <- app_assoc. reflexivity.
Qed.

Lemma record_trades_other_logs (now : datetime) (out : list TradeRow) (fs : Files)
    (date : Z) :
  date <> strftime_date now ->
  trade_logs (record_trades now out fs) !! date = trade_logs fs !! date.
Proof.
  intros Hne. unfold record_trades. revert fs.
  induction out as [|row out IH]; intros fs; [reflexivity|].
  cbn [fold_left]. rewrite IH.
  cbn [update_summary trade_logs append_trade_log].
  rewrite lookup_insert_ne by congruence. reflexivity.
Qed.


(** ** The rolling summary, continued *)

Lemma In_insert_by_date (r x : SummaryRow) (l : list SummaryRow) :
  In x (insert_by_date r l) -> x = r \/ In x l.
Proof.
  induction l as [|y l IH]; cbn [insert_by_date].
  - intros [<-|[]]. auto.
  - destruct (s_date y <=? s_date r).
    + intros [<-|H]; [right; left; reflexivity|].
      destruct (IH H); [auto|right; right; assumption].
    + intros [<-|H]; auto.
Qed.

Lemma insert_by_date_sorted (r : SummaryRow) (l : list SummaryRow) :
  StronglySorted (fun a b => s_date a <= s_date b) l ->
  StronglySorted (fun a b => s_date a <= s_date b) (insert_by_date r l).
Proof.
  induction 1 as [|x l Hs IH Hx]; cbn [insert_by_date].
  - constructor; constructor.
  - destruct (s_date x <=? s_date r) eqn:E.
    + apply Z.leb_le in E. constructor; [exact IH|].
      apply List.Forall_forall. intros y Hy.
      destruct (In_insert_by_date r y l Hy) as [->|Hin]; [exact E|].
      rewrite List.Forall_forall in Hx. apply Hx, Hin.
    + apply Z.leb_gt in E. constructor; [constructor; assumption|].
      constructor; [lia|].
      apply List.Forall_forall. intros y Hy. rewrite List.Forall_forall in Hx.
      specialize (Hx y Hy). cbn in Hx. lia.
Qed.

Lemma sort_by_date_sorted (l : list SummaryRow) :
  StronglySorted (fun a b => s_date a <= s_date b) (sort_by_date l).
Proof.
  unfold sort_by_date.
  assert (H : forall acc,
            StronglySorted (fun a b => s_date a <= s_date b) acc ->
            StronglySorted (fun a b => s_date a <= s_date b)
              (fold_left (fun a r => insert_by_date r a) l acc)).
  { induction l as [|x l IH]; intros acc Hacc; [exact Hacc|].
    cbn [fold_left]. apply IH, insert_by_date_sorted, Hacc. }
  apply H. constructor.
Qed.

Lemma drop_duplicates_last_sorted (l : list SummaryRow) :
  StronglySorted (fun a b => s_date a <= s_date b) l ->
  StronglySorted (fun a b => s_date a < s_date b) (drop_duplicates_last l).
Proof.
  induction 1 as [|x l Hs IH Hx]; cbn [drop_duplicates_last]; [constructor|].
  destruct (existsb (fun y => s_date y =? s_date x) l) eqn:E; [exact IH|].
  constructor; [exact IH|].
  apply Forall_drop_duplicates_last.
  apply List.Forall_forall. intros y Hy.
  rewrite List.Forall_forall in Hx. specialize (Hx y Hy). cbn in Hx.
  assert (Hne : (s_date y =? s_date x) = false).
  { destruct (s_date y =? s_date x) eqn:Eq; [|reflexivity].
    assert (Hex : existsb (fun y => s_date y =? s_date x) l = true).
    { apply existsb_exists. exists y. auto. }
    congruence. }
  apply Z.eqb_neq in Hne. lia.
Qed.

Lemma tail_rows_sorted (R : SummaryRow -> SummaryRow -> Prop) (n : nat)
    (l : list SummaryRow) :
  StronglySorted R l -> StronglySorted R (tail_rows n l).
Proof.
  unfold tail_rows. generalize (length l - n)%nat as k.
  intros k H. revert k.
  induction H as [|x l Hs IH Hx]; intros [|k]; cbn [skipn];
    try constructor; auto.
Qed.

(** X6. The frame written to the summary holds between one and ten
    rows, their dates strictly increase (so no date occurs twice), and
    each row is the new one or a row the file already held. *)
Theorem summary_window (cur : option (list SummaryRow)) (row : TradeRow) :
  (1 <= length (summary_frame cur row) <= 10)%nat /\
  StronglySorted (fun a b => s_date a < s_date b) (summary_frame cur row) /\
  (forall r, In r (summary_frame cur row) ->
     r = new_summary_row row \/ exists rows, cur = Some rows /\ In r rows).
Proof.
  pose proof (summary_frame_nonempty cur row) as Hpos.
  unfold summary_frame in *.
  set (cur1 := match cur with
               | Some rows => rows ++ [new_summary_row row]
               | None => [new_summary_row row]
               end) in *.
  set (cur2 := drop_duplicates_last (sort_by_date cur1)) in *.
  assert (Hsorted : StronglySorted (fun a b => s_date a < s_date b) cur2).
  { apply drop_duplicates_last_sorted, sort_by_date_sorted. }
  assert (Hfrom : Forall (fun r => In r cur1) cur2).
  { apply Forall_drop_duplicates_last, Forall_sort_by_date.
    apply List.Forall_forall. auto. }
  assert (Hcur1 : forall r, In r cur1 ->
            r = new_summary_row row \/ exists rows, cur = Some rows /\ In r rows).
  { intros r Hr. unfold cur1 in Hr. destruct cur as [rows|].
    - apply in_app_or in Hr as [Hr|[<-|[]]]; [right; eauto|left; reflexivity].
    - destruct Hr as [<-|[]]. left. reflexivity. }
  destruct (10 <? length cur2)%nat eqn:E.
  - apply Nat.ltb_lt in E. split; [|split].
    + unfold tail_rows in *. rewrite length_skipn in *. lia.
    + apply tail_rows_sorted, Hsorted.
    + intros r Hr. apply Hcur1.
      pose proof (Forall_tail_rows _ 10 cur2 Hfrom) as Hf.
      rewrite List.Forall_forall in Hf. apply Hf, Hr.
  - apply Nat.ltb_ge in E. split; [lia|]. split; [exact Hsorted|].
    intros r Hr. apply Hcur1. rewrite List.Forall_forall in Hfrom. apply Hfrom, Hr.
Qed.

Lemma insert_by_date_latest (r : SummaryRow) (l : list SummaryRow) :
  Forall (fun x => s_date x < s_date r) l -> insert_by_date r l = l ++ [r].
Proof.
  induction 1 as [|x l Hx Hl IH]; cbn [insert_by_date]; [reflexivity|].
  assert (E : (s_date x <=? s_date r) = true) by (apply Z.leb_le; lia).
  rewrite E, IH. reflexivity.
Qed.

Lemma drop_duplicates_last_snoc (l : list SummaryRow) (r : SummaryRow) :
  exists l', drop_duplicates_last (l ++ [r]) = l' ++ [r].
Proof.
  induction l as [|x l [l' IH]]; cbn [app drop_duplicates_last existsb].
  - exists []. reflexivity.
  - destruct (existsb _ (l ++ [r])).
    + exists l'. exact IH.
    + exists (x :: l'). rewrite IH. reflexivity.
Qed.

Lemma last_skipn {A : Type} (k : nat) (l : list A) :
  (k < length l)%nat -> last (skipn k l) = last l.
Proof.
  revert l. induction k as [|k IH]; intros l Hk; [reflexivity|].
  destruct l as [|x l]; [cbn in Hk; lia|].
  cbn [skipn]. rewrite IH by (cbn in Hk; lia).
  destruct l; [cbn in Hk; lia|reflexivity].
Qed.

(** X7. When the trade is of a later day than every row the file holds,
    its row is the last of the frame written. *)
Theorem latest_day_is_last (cur : option (list SummaryRow)) (row : TradeRow) :
  (forall rows r, cur = Some rows -> In r rows -> s_date r < r_date row) ->
  last (summary_frame cur row) = Some (new_summary_row row).
Proof.
  intros Hlate. unfold summary_frame.
  set (r := new_summary_row row).
  assert (Hsort : exists l, sort_by_date
                    (match cur with
                     | Some rows => rows ++ [r]
                     | None => [r]
                     end) = l ++ [r]).
  { destruct cur as [rows|]; [|exists []; reflexivity].
    exists (sort_by_date rows). unfold sort_by_date.
    rewrite fold_left_app. cbn [fold_left].
    apply insert_by_date_latest.
    apply (Forall_sort_by_date (fun x => s_date x < s_date r)).
    apply List.Forall_forall. intros x Hx. apply (Hlate rows x eq_refl Hx). }
  destruct Hsort as [l ->].
  destruct (drop_duplicates_last_snoc l r) as [l' ->].
  destruct (10 <? length (l' ++ [r]))%nat eqn:E.
  - apply Nat.ltb_lt in E. unfold tail_rows.
    rewrite last_skipn by lia. apply last_snoc.
  - apply last_snoc.
Qed.

Lemma latest_day_is_last_witness :
  last (summary_frame (Some [earlier_summary_row]) scratch_trade)
  = Some (new_summary_row scratch_trade).
Proof.
  apply (latest_day_is_last (Some [earlier_summary_row]) scratch_trade).
  intros rows r [= <-] [<-|[]]. vm_compute. reflexivity.
Defined.

(** ** Rounding *)

Lemma round_half_even_comp (x y : Q) :
  (x == y)%Q -> round_half_even x = round_half_even y.
Proof.
  intros H. unfold round_half_even.
  rewrite (Qfloor_comp x y H).
  assert (E : (x - inject_Z (Qfloor y) == y - inject_Z (Qfloor y))%Q)
    by (rewrite H; reflexivity).
  rewrite (Qcompare_comp _ _ E (1 # 2) (1 # 2) (Qeq_refl _)). reflexivity.
Qed.

Lemma round2_comp (x y : Q) : (x == y)%Q -> round2 x = round2 y.
Proof.
  intros H. unfold round2.
  rewrite (round_half_even_comp (x * 100) (y * 100)); [reflexivity|].
  rewrite H. reflexivity.
Qed.

Lemma round_half_even_le (x y : Q) :
  (x <= y)%Q -> round_half_even x <= round_half_even y.
Proof.
  intros Hxy. unfold round_half_even.
  pose proof (Qfloor_resp_le x y Hxy) as Hnm.
  pose proof (Qfloor_le x) as Hx1. pose proof (Qlt_floor x) as Hx2.
  pose proof (Qfloor_le y) as Hy1. pose proof (Qlt_floor y) as Hy2.
  set (n := Qfloor x) in *. set (m := Qfloor y) in *.
  destruct (Z.eq_dec n m) as [Heq|Hne].
  - rewrite <- Heq in *. clear Heq Hnm.
    destruct (Qcompare_spec (x - inject_Z n) (1 # 2)) as [Ex|Ex|Ex];
      destruct (Qcompare_spec (y - inject_Z n) (1 # 2)) as [Ey|Ey|Ey];
      destruct (Z.even n); try lia; exfalso; lra.
  - assert (Hlt : n + 1 <= m) by lia.
    destruct (Qcompare (x - inject_Z n) (1 # 2));
      destruct (Qcompare (y - inject_Z m) (1 # 2));
      destruct (Z.even n); destruct (Z.even m); lia.
Qed.

Lemma round2_le (x y : Q) : (x <= y)%Q -> (round2 x <= round2 y)%Q.
Proof.
  intros H. unfold round2.
  assert (H100 : (x * 100 <= y * 100)%Q) by lra.
  apply round_half_even_le in H100. rewrite Zle_Qle in H100.
  unfold Qdiv. apply Qmult_le_compat_r; [exact H100|].
  vm_compute. discriminate.
Qed.

(** ** Bounds kept by an open trade *)

Ltac qcases :=
  repeat (match goal with
          | |- context [Qle_bool ?a ?b] =>
            let E := fresh "E" in
            destruct (Qle_bool a b) eqn:E;
            [apply Qle_bool_iff in E|apply (Qleb_false a b) in E]
          | _ : context [Qle_bool ?a ?b] |- _ =>
            let E := fresh "E" in
            destruct (Qle_bool a b) eqn:E;
            [apply Qle_bool_iff in E|apply (Qleb_false a b) in E]
          end; cbn [negb andb] in *).

Lemma trail_long_bounds (e w s h : Q) (be : bool) :
  long_bounds e w s be ->
  ((h < e + TAKE_PROFIT_POINTS)%Q ->
   long_bounds e (watermark_long h w)
     (stop_long be (watermark_long h w) e s)
     (if be_fires_long be (watermark_long h w) e then true else be)) /\
  (e - TRAIL_DISTANCE_POINTS
     <= stop_long be (watermark_long h w) e s)%Q /\
  ((if be_fires_long be (watermark_long h w) e then true else be) = true ->
   (e <= stop_long be (watermark_long h w) e s)%Q) /\
  ((h < e + TAKE_PROFIT_POINTS)%Q ->
   (stop_long be (watermark_long h w) e s - e <= 5)%Q).
Proof.
  unfold long_bounds, stop_long, be_fires_long, watermark_long, pymax,
    Qgtb, Qgeb, TAKE_PROFIT_POINTS, TRAIL_DISTANCE_POINTS,
    BREAKEVEN_TRIGGER_POINTS.
  intros (H1 & H2 & H3 & H4 & H5 & [H6 H6'] & H7).
  destruct be; cbn [negb andb]; qcases; cbn [negb andb];
    repeat split; intros; try discriminate; try reflexivity;
    try (specialize (H6 eq_refl)); try (specialize (H7 eq_refl));
    try lra;
    try (destruct H5; lra);
    try (left; lra); try (right; lra);
    try (exfalso; assert (false = true) by (apply H6'; lra); discriminate).
Qed.

Lemma trail_short_bounds (e w s l : Q) (be : bool) :
  short_bounds e w s be ->
  ((e - TAKE_PROFIT_POINTS < l)%Q ->
   short_bounds e (watermark_short l w)
     (stop_short be (watermark_short l w) e s)
     (if be_fires_short be (watermark_short l w) e then true else be)) /\
  (stop_short be (watermark_short l w) e s
     <= e + TRAIL_DISTANCE_POINTS)%Q /\
  ((if be_fires_short be (watermark_short l w) e then true else be) = true ->
   (stop_short be (watermark_short l w) e s <= e)%Q) /\
  ((e - TAKE_PROFIT_POINTS < l)%Q ->
   (e - stop_short be (watermark_short l w) e s <= 5)%Q).
Proof.
  unfold short_bounds, stop_short, be_fires_short, watermark_short, pymin,
    Qltb, Qgeb, TAKE_PROFIT_POINTS, TRAIL_DISTANCE_POINTS,
    BREAKEVEN_TRIGGER_POINTS.
  intros (H1 & H2 & H3 & H4 & H5 & [H6 H6'] & H7).
  destruct be; cbn [negb andb]; qcases; cbn [negb andb];
    repeat split; intros; try discriminate; try reflexivity;
    try (specialize (H6 eq_refl)); try (specialize (H7 eq_refl));
    try lra;
    try (destruct H5; lra);
    try (left; lra); try (right; lra);
    try (exfalso; assert (false = true) by (apply H6'; lra); discriminate).
Qed.

Lemma guarded_fresh (date : Z) : guarded (fresh_state date).
Proof. intros e w s H. discriminate. Qed.

Lemma guarded_stamp (st : TradeState) (x : tstext) :
  guarded st -> guarded (set_last_processed_ts st x).
Proof. intros H. exact H. Qed.

Lemma guarded_close (st : TradeState) : guarded (close_trade st).
Proof. intros e w s _ _ _. split; discriminate. Qed.

Lemma guarded_open_long (st : TradeState) (ts : datetime) (c : Q) :
  guarded (open_trade st "long" ts c (c - TRAIL_DISTANCE_POINTS)%Q).
Proof.
  intros e w s [= <-] [= <-] [= <-]. split; [intros _|discriminate].
  unfold long_bounds, TAKE_PROFIT_POINTS, TRAIL_DISTANCE_POINTS,
    BREAKEVEN_TRIGGER_POINTS. cbn [be_triggered open_trade].
  repeat split; try lra; try discriminate.
Qed.

Lemma guarded_open_short (st : TradeState) (ts : datetime) (c : Q) :
  guarded (open_trade st "short" ts c (c + TRAIL_DISTANCE_POINTS)%Q).
Proof.
  intros e w s [= <-] [= <-] [= <-]. split; [discriminate|intros _].
  unfold short_bounds, TAKE_PROFIT_POINTS, TRAIL_DISTANCE_POINTS,
    BREAKEVEN_TRIGGER_POINTS. cbn [be_triggered open_trade].
  repeat split; try lra; try discriminate.
Qed.

Lemma guarded_entry_logic (times : Times) (ll sl : Q) (st : TradeState)
    (cd : Candle) :
  guarded st -> guarded (entry_logic times ll sl st cd).
Proof.
  intros Hg. unfold entry_logic.
  destruct (_ && _); [|exact Hg].
  destruct (Qgeb _ _); [apply guarded_open_long|].
  destruct (Qleb _ _); [apply guarded_open_short|exact Hg].
Qed.

(** A row comes out of the management branch, run on the state the entry
    logic leaves, when the exit check of its direction finds an exit. *)
Lemma emitted_row (times : Times) (ll sl : Q) (st st' : TradeState)
    (cd : Candle) (out : list TradeRow) (row : TradeRow) :
  process_candle times ll sl st cd = Ok (st', out) ->
  In row out ->
  exists e w s p r,
    let st1 := entry_logic times ll sl st cd in
    entry_price st1 = Some e /\ watermark_price st1 = Some w /\
    stop_price st1 = Some s /\ out = [row] /\
    trade_open st' = false /\
    ((direction st1 = Some "long"%string /\
      exit_check_long times e
        (stop_long (be_triggered st1) (watermark_long (c_High cd) w) e s) cd
        = Some (p, r) /\
      be_triggered st'
        = (if be_fires_long (be_triggered st1) (watermark_long (c_High cd) w) e
           then true else be_triggered st1) /\
      r_pnl_points row = round2 (p - e) /\
      r_pnl_usd row = round2 ((p - e) * POINT_VALUE) /\
      r_direction row = "long"%string)
     \/
     (direction st1 = Some "short"%string /\
      exit_check_short times e
        (stop_short (be_triggered st1) (watermark_short (c_Low cd) w) e s) cd
        = Some (p, r) /\
      be_triggered st'
        = (if be_fires_short (be_triggered st1) (watermark_short (c_Low cd) w) e
           then true else be_triggered st1) /\
      r_pnl_points row = round2 (e - p) /\
      r_pnl_usd row = round2 ((e - p) * POINT_VALUE) /\
      r_direction row = "short"%string)) /\
    r_exit_reason row = r /\ r_exit_price row = round2 p /\
    r_entry_price row = round2 e /\
    r_exit_time row = isoformat (c_ts cd) /\
    r_entry_time row = entry_time st' /\
    r_date row = session_date st'.
Proof.
  unfold process_candle.
  destruct (negb _); [intros [= <- <-] []|].
  set (st1 := entry_logic times ll sl st cd).
  destruct (trade_open st1); [|intros [= <- <-] []].
  unfold manage_open_trade.
  destruct (entry_price st1) as [e|] eqn:He; [|discriminate].
  cbn [as_float mbind result_bind].
  destruct (direction st1) as [dir|] eqn:Hd; [|intros [= <- <-] []].
  destruct (String.eqb dir "long") eqn:Elong.
  - apply String.eqb_eq in Elong. subst dir.
    destruct (watermark_price st1) as [w|] eqn:Hw; [|discriminate].
    destruct (stop_price st1) as [s|] eqn:Hs; [|discriminate].
    cbn [as_float mbind result_bind].
    destruct (exit_check_long times e _ cd) as [[p r]|] eqn:Hexit;
      cbn [settle]; intros [= <- <-]; [|intros []].
    intros [<-|[]]. exists e, w, s, p, r. cbv zeta. fold st1.
    split; [first [exact He|reflexivity]|].
    split; [first [exact Hw|reflexivity]|].
    split; [first [exact Hs|reflexivity]|].
    split; [reflexivity|]. split; [reflexivity|].
    split; [left; split; [first [exact Hd|reflexivity]|];
            split; [exact Hexit|]; repeat split|].
    repeat split.
  - destruct (String.eqb dir "short") eqn:Eshort; [|intros [= <- <-] []].
    apply String.eqb_eq in Eshort. subst dir.
    destruct (watermark_price st1) as [w|] eqn:Hw; [|discriminate].
    destruct (stop_price st1) as [s|] eqn:Hs; [|discriminate].
    cbn [as_float mbind result_bind].
    destruct (exit_check_short times e _ cd) as [[p r]|] eqn:Hexit;
      cbn [settle]; intros [= <- <-]; [|intros []].
    intros [<-|[]]. exists e, w, s, p, r. cbv zeta. fold st1.
    split; [first [exact He|reflexivity]|].
    split; [first [exact Hw|reflexivity]|].
    split; [first [exact Hs|reflexivity]|].
    split; [reflexivity|]. split; [reflexivity|].
    split; [right; split; [first [exact Hd|reflexivity]|];
            split; [exact Hexit|]; repeat split|].
    repeat split.
Qed.

Lemma manage_guarded (times : Times) (st st2 : TradeState) (cd : Candle)
    (out : list TradeRow) :
  guarded st ->
  manage_open_trade times st cd = Ok (st2, out) ->
  guarded st2.
Proof.
  intros Hg. unfold manage_open_trade.
  destruct (entry_price st) as [e|] eqn:He; [|discriminate].
  cbn [as_float mbind result_bind].
  destruct (direction st) as [dir|] eqn:Hd; [|intros [= <- <-]; exact Hg].
  destruct (String.eqb dir "long") eqn:Elong.
  - apply String.eqb_eq in Elong. subst dir.
    destruct (watermark_price st) as [w|] eqn:Hw; [|discriminate].
    destruct (stop_price st) as [s|] eqn:Hs; [|discriminate].
    cbn [as_float mbind result_bind].
    pose proof (proj1 (Hg e w s He Hw Hs) Hd) as Hb.
    destruct (exit_check_long times e _ cd) as [[p r]|] eqn:Hexit;
      cbn [settle]; intros [= <- <-]; [apply guarded_close|].
    apply exit_check_long_none in Hexit as (Htp & _ & _).
    intros e0 w0 s0. cbn [entry_price watermark_price stop_price direction
                            be_triggered set_trailing].
    rewrite He. intros [= <-] [= <-] [= <-]. split; [intros _|congruence].
    apply (trail_long_bounds e w s (c_High cd) (be_triggered st) Hb), Htp.
  - destruct (String.eqb dir "short") eqn:Eshort; [|intros [= <- <-]; exact Hg].
    apply String.eqb_eq in Eshort. subst dir.
    destruct (watermark_price st) as [w|] eqn:Hw; [|discriminate].
    destruct (stop_price st) as [s|] eqn:Hs; [|discriminate].
    cbn [as_float mbind result_bind].
    pose proof (proj2 (Hg e w s He Hw Hs) Hd) as Hb.
    destruct (exit_check_short times e _ cd) as [[p r]|] eqn:Hexit;
      cbn [settle]; intros [= <- <-]; [apply guarded_close|].
    apply exit_check_short_none in Hexit as (Htp & _ & _).
    intros e0 w0 s0. cbn [entry_price watermark_price stop_price direction
                            be_triggered set_trailing].
    rewrite He. intros [= <-] [= <-] [= <-]. split; [congruence|intros _].
    apply (trail_short_bounds e w s (c_Low cd) (be_triggered st) Hb), Htp.
Qed.

Lemma process_candle_guarded (times : Times) (ll sl : Q) (st st' : TradeState)
    (cd : Candle) (out : list TradeRow) :
  guarded st ->
  process_candle times ll sl st cd = Ok (st', out) ->
  guarded st'.
Proof.
  intros Hg. unfold process_candle.
  destruct (negb _); [intros [= <- <-]; exact Hg|].
  pose proof (guarded_entry_logic times ll sl st cd Hg) as Hg1.
  destruct (trade_open _); [|intros [= <- <-]; exact Hg1].
  destruct (manage_open_trade _ _ _) as [[st2 o2]|] eqn:Hm; [|discriminate].
  cbn [mbind result_bind]. intros [= <- <-].
  apply guarded_stamp, (manage_guarded _ _ _ _ _ Hg1 Hm).
Qed.

Lemma reachable_guarded (st : TradeState) : reachable st -> guarded st.
Proof.
  induction 1 as [date|st st' k out _ IH Ht].
  - apply guarded_fresh.
  - exact (process_candle_guarded _ _ _ _ _ _ _ IH Ht).
Qed.

(** X8. Between candles, a long that is open has its watermark at or
    above the entry and below the take-profit level, its stop no more
    than the trail distance below the entry and below the watermark, and
    it is flagged break-even exactly when the watermark is the trigger
    distance above the entry, in which case the stop is at or above the
    entry.  A short keeps the mirrored bounds. *)
Theorem open_trade_bounds (st : TradeState) (e w s : Q) :
  reachable st ->
  entry_price st = Some e ->
  watermark_price st = Some w ->
  stop_price st = Some s ->
  (direction st = Some "long"%string ->
   (e <= w)%Q /\ (w < e + TAKE_PROFIT_POINTS)%Q /\
   (e - TRAIL_DISTANCE_POINTS <= s)%Q /\ (w - TRAIL_DISTANCE_POINTS <= s)%Q /\
   (be_triggered st = true <-> (e + BREAKEVEN_TRIGGER_POINTS <= w)%Q) /\
   (be_triggered st = true -> (e <= s)%Q)) /\
  (direction st = Some "short"%string ->
   (w <= e)%Q /\ (e - TAKE_PROFIT_POINTS < w)%Q /\
   (s <= e + TRAIL_DISTANCE_POINTS)%Q /\ (s <= w + TRAIL_DISTANCE_POINTS)%Q /\
   (be_triggered st = true <-> (w <= e - BREAKEVEN_TRIGGER_POINTS)%Q) /\
   (be_triggered st = true -> (s <= e)%Q)).
Proof.
  intros Hr He Hw Hs.
  destruct (reachable_guarded st Hr e w s He Hw Hs) as [Hl Hsh].
  split; intros Hd.
  - destruct (Hl Hd) as (H1 & H2 & H3 & H4 & _ & [H6 H6'] & H7).
    split; [exact H1|]. split; [exact H2|]. split; [exact H3|].
    split; [exact H4|]. split; [|exact H7].
    split.
    + intros Hbe. specialize (H6 Hbe). lra.
    + intros Hbe. apply H6'. lra.
  - destruct (Hsh Hd) as (H1 & H2 & H3 & H4 & _ & [H6 H6'] & H7).
    split; [exact H1|]. split; [exact H2|]. split; [exact H3|].
    split; [exact H4|]. split; [|exact H7].
    split.
    + intros Hbe. specialize (H6 Hbe). lra.
    + intros Hbe. apply H6'. lra.
Qed.

Lemma open_trade_bounds_witness :
  (direction open_long_state = Some "long"%string ->
   (103 <= 207 # 2)%Q /\ (207 # 2 < 103 + TAKE_PROFIT_POINTS)%Q /\
   (103 - TRAIL_DISTANCE_POINTS <= 177 # 2)%Q /\
   ((207 # 2) - TRAIL_DISTANCE_POINTS <= 177 # 2)%Q /\
   (be_triggered open_long_state = true <->
    (103 + BREAKEVEN_TRIGGER_POINTS <= 207 # 2)%Q) /\
   (be_triggered open_long_state = true -> (103 <= 177 # 2)%Q)) /\
  (direction open_long_state = Some "short"%string ->
   (207 # 2 <= 103)%Q /\ (103 - TAKE_PROFIT_POINTS < 207 # 2)%Q /\
   (177 # 2 <= 103 + TRAIL_DISTANCE_POINTS)%Q /\
   (177 # 2 <= (207 # 2) + TRAIL_DISTANCE_POINTS)%Q /\
   (be_triggered open_long_state = true <->
    (207 # 2 <= 103 - BREAKEVEN_TRIGGER_POINTS)%Q) /\
   (be_triggered open_long_state = true -> (177 # 2 <= 103)%Q)).
Proof.
  apply (open_trade_bounds open_long_state 103 (207 # 2) (177 # 2)).
  - exact open_long_reachable.
  - reflexivity.
  - reflexivity.
  - reflexivity.
Defined.

Lemma exit_check_long_stop (times : Times) (e stop : Q) (cd : Candle) (p : Q) :
  exit_check_long times e stop cd = Some (p, "TrailingStop"%string) ->
  p = stop /\ (c_High cd < e + TAKE_PROFIT_POINTS)%Q /\ (c_Low cd <= stop)%Q.
Proof.
  unfold exit_check_long.
  destruct (Qgeb (c_High cd) (e + TAKE_PROFIT_POINTS)) eqn:Htp; [discriminate|].
  apply Qgeb_false in Htp.
  destruct (Qleb (c_Low cd) stop) eqn:Hst.
  - intros [= <-]. apply Qleb_true in Hst. auto.
  - destruct (_ <=? _); discriminate.
Qed.

Lemma exit_check_short_stop (times : Times) (e stop : Q) (cd : Candle) (p : Q) :
  exit_check_short times e stop cd = Some (p, "TrailingStop"%string) ->
  p = stop /\ (e - TAKE_PROFIT_POINTS < c_Low cd)%Q /\ (stop <= c_High cd)%Q.
Proof.
  unfold exit_check_short.
  destruct (Qleb (c_Low cd) (e - TAKE_PROFIT_POINTS)) eqn:Htp; [discriminate|].
  apply Qleb_false in Htp.
  destruct (Qgeb (c_High cd) stop) eqn:Hst.
  - intros [= <-]. apply Qgeb_true in Hst. auto.
  - destruct (_ <=? _); discriminate.
Qed.

(** X9. A row that leaves on the take-profit records exactly the
    take-profit distance as its points, 20, and that distance times the
    point value as its dollars, 400, long or short. *)
Theorem take_profit_pnl (times : Times) (ll sl : Q) (st st' : TradeState)
    (cd : Candle) (out : list TradeRow) (row : TradeRow) :
  process_candle times ll sl st cd = Ok (st', out) ->
  In row out ->
  r_exit_reason row = "TP"%string ->
  r_pnl_points row = round2 TAKE_PROFIT_POINTS /\
  (r_pnl_points row == 20)%Q /\
  r_pnl_usd row = round2 (TAKE_PROFIT_POINTS * POINT_VALUE) /\
  (r_pnl_usd row == 400)%Q.
Proof.
  intros Hp Hin Hr.
  destruct (emitted_row times ll sl st st' cd out row Hp Hin)
    as (e & w & s & p & r & _ & _ & _ & _ & _ & Hdir & Hreason & _).
  cbv zeta in Hdir. rewrite Hr in Hreason. subst r.
  assert (Hpts : r_pnl_points row = round2 TAKE_PROFIT_POINTS /\
                 r_pnl_usd row = round2 (TAKE_PROFIT_POINTS * POINT_VALUE)).
  { destruct Hdir as [(_ & Hexit & _ & Hpts & Husd & _)
                     |(_ & Hexit & _ & Hpts & Husd & _)].
    - apply exit_check_long_inv in Hexit
        as [(_ & -> & _)|[(Hx & _)|(Hx & _)]]; try discriminate.
      rewrite Hpts, Husd. split; apply round2_comp; ring.
    - apply exit_check_short_inv in Hexit
        as [(_ & -> & _)|[(Hx & _)|(Hx & _)]]; try discriminate.
      rewrite Hpts, Husd. split; apply round2_comp; ring. }
  destruct Hpts as [-> ->]. repeat split; reflexivity.
Qed.

Lemma take_profit_pnl_witness :
  r_pnl_points wide_breakout_row = round2 TAKE_PROFIT_POINTS /\
  (r_pnl_points wide_breakout_row == 20)%Q /\
  r_pnl_usd wide_breakout_row = round2 (TAKE_PROFIT_POINTS * POINT_VALUE) /\
  (r_pnl_usd wide_breakout_row == 400)%Q.
Proof.
  apply (take_profit_pnl sample_times 102 88 (fresh_state 0)
           (fst wide_breakout_exit) wide_breakout (snd wide_breakout_exit)
           wide_breakout_row).
  - vm_compute. reflexivity.
  - left. reflexivity.
  - reflexivity.
Defined.

(** X10. From a reachable state, a row that leaves on the stop records
    points between minus the trail distance, -15, and 5; when the trade
    was flagged break-even it records no loss. *)
Theorem stop_exit_pnl_bounds (times : Times) (ll sl : Q) (st st' : TradeState)
    (cd : Candle) (out : list TradeRow) (row : TradeRow) :
  reachable st ->
  process_candle times ll sl st cd = Ok (st', out) ->
  In row out ->
  r_exit_reason row = "TrailingStop"%string ->
  (- (15) <= r_pnl_points row <= 5)%Q /\
  (be_triggered st' = true -> (0 <= r_pnl_points row)%Q).
Proof.
  intros Hreach Hp Hin Hr.
  pose proof (guarded_entry_logic times ll sl st cd (reachable_guarded st Hreach))
    as Hg.
  destruct (emitted_row times ll sl st st' cd out row Hp Hin)
    as (e & w & s & p & r & He & Hw & Hs & _ & _ & Hdir & Hreason & _).
  cbv zeta in He, Hw, Hs, Hdir. rewrite Hr in Hreason. subst r.
  destruct (Hg e w s He Hw Hs) as [Hl Hsh].
  assert (R15 : (- (15) <= round2 (- (15)))%Q) by (vm_compute; discriminate).
  assert (R5 : (round2 5 <= 5)%Q) by (vm_compute; discriminate).
  assert (R0 : (0 <= round2 0)%Q) by (vm_compute; discriminate).
  destruct Hdir as [(Hd & Hexit & Hbe & Hpts & _)|(Hd & Hexit & Hbe & Hpts & _)].
  - apply exit_check_long_stop in Hexit as (-> & Htp & _).
    destruct (trail_long_bounds e w s (c_High cd) (be_triggered _) (Hl Hd))
      as (_ & Hlow & Hbreak & Hup).
    specialize (Hup Htp). rewrite Hpts.
    unfold TRAIL_DISTANCE_POINTS in Hlow. split; [split|].
    + eapply Qle_trans; [exact R15|]. apply round2_le. lra.
    + eapply Qle_trans; [|exact R5]. apply round2_le. lra.
    + intros Hflag. rewrite Hbe in Hflag. specialize (Hbreak Hflag).
      eapply Qle_trans; [exact R0|]. apply round2_le. lra.
  - apply exit_check_short_stop in Hexit as (-> & Htp & _).
    destruct (trail_short_bounds e w s (c_Low cd) (be_triggered _) (Hsh Hd))
      as (_ & Hlow & Hbreak & Hup).
    specialize (Hup Htp). rewrite Hpts.
    unfold TRAIL_DISTANCE_POINTS in Hlow. split; [split|].
    + eapply Qle_trans; [exact R15|]. apply round2_le. lra.
    + eapply Qle_trans; [|exact R5]. apply round2_le. lra.
    + intros Hflag. rewrite Hbe in Hflag. specialize (Hbreak Hflag).
      eapply Qle_trans; [exact R0|]. apply round2_le. lra.
Qed.

Lemma stop_exit_pnl_bounds_witness :
  (- (15) <= r_pnl_points pullback_row <= 5)%Q /\
  (be_triggered (fst pullback_exit) = true -> (0 <= r_pnl_points pullback_row)%Q).
Proof.
  apply (stop_exit_pnl_bounds sample_times 102 88 open_long_state
           (fst pullback_exit) pullback (snd pullback_exit) pullback_row).
  - exact open_long_reachable.
  - vm_compute. reflexivity.
  - left. reflexivity.
  - reflexivity.
Defined.

(** ** The mark of the last processed candle *)

Lemma process_candle_mark (times : Times) (ll sl : Q) (st st' : TradeState)
    (cd : Candle) (out : list TradeRow) :
  process_candle times ll sl st cd = Ok (st', out) ->
  last_processed_ts st' = Some (isoformat (c_ts cd)).
Proof.
  unfold process_candle.
  destruct (negb _); [intros [= <- <-]; reflexivity|].
  destruct (if trade_open _ then _ else _) as [[st2 o2]|]; [|discriminate].
  cbn [mbind result_bind]. intros [= <- <-]. reflexivity.
Qed.

Lemma last_ts_cons (k : Tick) (rest : list Tick) :
  last_ts (k :: rest)
  = match last_ts rest with
    | Some t => Some t
    | None => Some (c_ts (k_candle k))
    end.
Proof.
  unfold last_ts. rewrite last_cons. destruct (last rest); reflexivity.
Qed.

Lemma run_mark (ticks : list Tick) (st st' : TradeState) (out : list TradeRow) :
  run st ticks = Ok (st', out) ->
  last_processed_ts st'
  = match last_ts ticks with
    | Some t => Some (isoformat t)
    | None => last_processed_ts st
    end.
Proof.
  revert st out. induction ticks as [|k rest IH]; intros st out Hrun.
  - cbn in Hrun. injection Hrun as <- _. reflexivity.
  - cbn [run] in Hrun.
    destruct (tick st k) as [[st1 o1]|] eqn:Ht; [|discriminate].
    cbn [mbind result_bind] in Hrun.
    destruct (run st1 rest) as [[st2 o2]|] eqn:Hrest; [|discriminate].
    cbn [mbind result_bind] in Hrun. injection Hrun as <- _.
    rewrite (IH st1 o2 Hrest), last_ts_cons.
    destruct (last_ts rest); [reflexivity|].
    exact (process_candle_mark _ _ _ _ _ _ _ Ht).
Qed.

Lemma last_ts_ticks_of (times : Times) (ll sl : Q) (candles : list Candle) :
  last_ts (ticks_of times ll sl candles) = c_ts <$> last candles.
Proof.
  induction candles as [|cd rest IH]; [reflexivity|].
  change (ticks_of times ll sl (cd :: rest))
    with ({| k_times := times; k_long_level := ll; k_short_level := sl;
             k_candle := cd |} :: ticks_of times ll sl rest).
  rewrite last_ts_cons, IH, last_cons.
  destruct (last rest); reflexivity.
Qed.

(** X11. After the loop over the candles of a call the stored mark is
    the timestamp of the last of them, whether or not that candle was
    inside the trade window; with no candle the mark is left as it
    was. *)
Theorem mark_follows_last_candle (times : Times) (ll sl : Q)
    (candles : list Candle) (st st' : TradeState) (out : list TradeRow) :
  process_candles times ll sl st candles = Ok (st', out) ->
  last_processed_ts st'
  = match last candles with
    | Some cd => Some (isoformat (c_ts cd))
    | None => last_processed_ts st
    end.
Proof.
  intros Hloop. rewrite process_candles_run in Hloop.
  rewrite (run_mark _ _ _ _ Hloop), last_ts_ticks_of.
  destruct (last candles); reflexivity.
Qed.

Lemma mark_follows_last_candle_witness :
  last_processed_ts (fst pullback_exit)
  = match last [quiet_breakout; pullback] with
    | Some cd => Some (isoformat (c_ts cd))
    | None => last_processed_ts (fresh_state 0)
    end.
Proof.
  apply (mark_follows_last_candle sample_times 102 88
           [quiet_breakout; pullback] (fresh_state 0)
           (fst pullback_exit) (snd pullback_exit)).
  vm_compute. reflexivity.
Defined.

Lemma select_candles_filter (times : Times) (st : TradeState)
    (today_df : list Candle) :
  exists p, upward p /\ select_candles times st today_df = List.filter p today_df.
Proof.
  assert (Hopen : upward (fun cd => t_open times <=? c_ts cd)).
  { intros a b Ha Hab. apply Z.leb_le in Ha. apply Z.leb_le. lia. }
  unfold select_candles.
  destruct (last_processed_ts st) as [x|]; [|eexists; split; [exact Hopen|reflexivity]].
  destruct (nonempty x); [|eexists; split; [exact Hopen|reflexivity]].
  destruct (fromisoformat x) as [t|]; [|eexists; split; [exact Hopen|reflexivity]].
  exists (fun cd => t <? c_ts cd). split; [|reflexivity].
  intros a b Ha Hab. apply Z.ltb_lt in Ha. apply Z.ltb_lt. lia.
Qed.

(** In a frame that does not go back in time, the last candle selected
    by an upward predicate is not earlier than any candle of the
    frame. *)
Lemma filter_last_latest (p : Candle -> bool) (df : list Candle) (m : Candle) :
  upward p -> ascending df ->
  last (List.filter p df) = Some m ->
  forall cd, In cd df -> c_ts cd <= c_ts m.
Proof.
  intros Hup Hasc. revert m. unfold ascending in Hasc.
  induction Hasc as [|x l Hs IH Hx]; intros m Hlast cd Hcd; [destruct Hcd|].
  rewrite List.Forall_forall in Hx.
  assert (Hm_in : forall m', last (List.filter p l) = Some m' -> In m' l).
  { intros m' Hm'. apply last_Some in Hm' as [l' El'].
    assert (Hin : In m' (List.filter p l))
      by (rewrite El'; apply in_or_app; right; left; reflexivity).
    apply filter_In in Hin. tauto. }
  cbn [List.filter] in Hlast. destruct (p x) eqn:Epx.
  - rewrite last_cons in Hlast.
    destruct (last (List.filter p l)) as [m'|] eqn:El.
    + injection Hlast as ->.
      destruct Hcd as [<-|Hcd]; [apply Hx, Hm_in, eq_refl|].
      apply (IH m eq_refl cd Hcd).
    + injection Hlast as ->.
      destruct Hcd as [<-|Hcd]; [lia|].
      exfalso.
      assert (Hpc : p cd = true) by (apply (Hup m cd Epx), Hx, Hcd).
      assert (Hin : In cd (List.filter p l)) by (apply filter_In; auto).
      revert El Hin. destruct (List.filter p l) as [|c l0]; intros El Hin;
        [destruct Hin|].
      rewrite last_cons in El. destruct (last l0); discriminate.
  - destruct Hcd as [<-|Hcd]; [apply Hx, Hm_in, Hlast|].
    apply (IH m Hlast cd Hcd).
Qed.

(** X12. When the frame does not go back in time, a second call over
    the very frame a call has just processed changes nothing in the
    state and emits nothing: the mark left by the first call excludes
    every candle of the frame. *)
Theorem advance_twice (times : Times) (st st1 : TradeState)
    (today_df : list Candle) (out : list TradeRow) :
  ascending today_df ->
  advance times st today_df = Ok (st1, out) ->
  advance times st1 today_df = Ok (st1, []).
Proof.
  intros Hasc. unfold advance.
  destruct (compute_opening_range _ _ _) as [[hi lo]|];
    [|intros [= <- <-]; reflexivity].
  intros Hrun.
  destruct (select_candles times st today_df) as [|cd0 sel0] eqn:Hsel.
  - cbn in Hrun. injection Hrun as <- <-. rewrite Hsel. reflexivity.
  - rewrite process_candles_run in Hrun.
    pose proof (run_mark _ _ _ _ Hrun) as Hmark.
    rewrite last_ts_ticks_of in Hmark.
    destruct (last (cd0 :: sel0)) as [m|] eqn:Hlast;
      [|rewrite last_cons in Hlast; destruct (last sel0); discriminate].
    cbn [fmap option_fmap option_map] in Hmark.
    destruct (select_candles_filter times st today_df) as (p & Hup & Hp).
    rewrite Hsel in Hp. rewrite Hp in Hlast.
    rewrite (select_candles_none times st1 today_df (isoformat (c_ts m))
               (c_ts m) Hmark eq_refl
               (filter_last_latest p today_df m Hup Hasc Hlast)).
    reflexivity.
Qed.

Lemma advance_twice_witness :
  advance sample_times open_long_state monday_frame = Ok (open_long_state, []).
Proof.
  apply (advance_twice sample_times (fresh_state 0) open_long_state
           monday_frame []).
  - unfold ascending, monday_frame.
    repeat constructor; vm_compute; discriminate.
  - vm_compute. reflexivity.
Defined.

(** ** Candles at and after the end of the window *)

Lemma late_candle_skipped (st : TradeState) (k : Tick) :
  t_trade_end (k_times k) < c_ts (k_candle k) ->
  tick st k = Ok (set_last_processed_ts st (isoformat (c_ts (k_candle k))), []).
Proof.
  intros Hlate. unfold tick. apply process_candle_outside.
  - unfold within. apply andb_false_iff. right. apply Z.leb_gt. exact Hlate.
  - apply andb_false_iff. right. apply Z.leb_gt. exact Hlate.
Qed.

(** X13. Candles later than the end of the trade window are never acted
    upon, even with a trade open: whatever their prices, they emit
    nothing and change nothing in the state but the mark, so a trade left
    open past the end of the window is not closed by them. *)
Theorem late_candles_ignored (st : TradeState) (ticks : list Tick) :
  Forall (fun k => t_trade_end (k_times k) < c_ts (k_candle k)) ticks ->
  exists st',
    run st ticks = Ok (st', []) /\
    (st' = st \/ exists x, st' = set_last_processed_ts st x) /\
    trade_open st' = trade_open st /\
    stop_price st' = stop_price st /\
    watermark_price st' = watermark_price st.
Proof.
  intros Hlate. revert st.
  induction Hlate as [|k rest Hk _ IH]; intros st.
  - exists st. split; [reflexivity|]. split; [left; reflexivity|]. auto.
  - destruct (IH (set_last_processed_ts st (isoformat (c_ts (k_candle k)))))
      as (st' & Hrun & Hst' & Ho & Hs & Hw).
    exists st'. split.
    + cbn [run]. rewrite (late_candle_skipped st k Hk).
      cbn [mbind result_bind]. rewrite Hrun. reflexivity.
    + split; [|auto].
      destruct Hst' as [->|[x ->]]; right; eauto.
Qed.

Lemma late_candles_ignored_witness :
  exists st',
    run open_long_state [sample_tick after_hours] = Ok (st', []) /\
    (st' = open_long_state \/
     exists x, st' = set_last_processed_ts open_long_state x) /\
    trade_open st' = trade_open open_long_state /\
    stop_price st' = stop_price open_long_state /\
    watermark_price st' = watermark_price open_long_state.
Proof.
  apply (late_candles_ignored open_long_state [sample_tick after_hours]).
  constructor; [vm_compute; reflexivity|constructor].
Defined.

(** X14. The candle stamped with the end of the trade window leaves no
    trade open: a trade that was open is closed by it with one row, for
    one of the three reasons, and a trade it opens itself is closed at
    once. *)
Theorem closing_candle_closes (st : TradeState) (k : Tick) :
  reachable st ->
  c_ts (k_candle k) = t_trade_end (k_times k) ->
  exists st' out,
    tick st k = Ok (st', out) /\
    trade_open st' = false /\
    (trade_open st = true -> exists row, out = [row]).
Proof.
  intros Hr Hts. pose proof (reachable_consistent st Hr) as Hc.
  assert (Hmanaged : forall st1,
            consistent st1 -> trade_open st1 = true ->
            exists st2 out,
              (r ← manage_open_trade (k_times k) st1 (k_candle k);
               Ok (stamp (c_ts (k_candle k)) r)) = Ok (st2, out) /\
              trade_open st2 = false /\ exists row, out = [row]).
  { intros st1 Hc1 Ho1.
    destruct (manage_shape (k_times k) st1 (k_candle k) Hc1 Ho1)
      as (e & w & s & _ & _ & _ & [[_ Hm]|[_ Hm]]); rewrite Hm;
      cbn [mbind result_bind].
    - match goal with
      | |- context [settle (set_trailing ?a ?b ?c ?d) ?dir ?e ?ts ?ex ?pnl] =>
        destruct (settled_fields a b c d dir e ts ex pnl)
          as (_ & _ & _ & _ & Hsome);
        destruct ex as [[p r]|] eqn:Hex
      end.
      + destruct (Hsome p r eq_refl) as ([row [Hout _]] & Hclosed).
        eexists _, _. split; [f_equal; apply surjective_pairing|].
        split; [exact Hclosed|]. exists row. exact Hout.
      + apply exit_check_long_none in Hex as (_ & _ & Hlt). lia.
    - match goal with
      | |- context [settle (set_trailing ?a ?b ?c ?d) ?dir ?e ?ts ?ex ?pnl] =>
        destruct (settled_fields a b c d dir e ts ex pnl)
          as (_ & _ & _ & _ & Hsome);
        destruct ex as [[p r]|] eqn:Hex
      end.
      + destruct (Hsome p r eq_refl) as ([row [Hout _]] & Hclosed).
        eexists _, _. split; [f_equal; apply surjective_pairing|].
        split; [exact Hclosed|]. exists row. exact Hout.
      + apply exit_check_short_none in Hex as (_ & _ & Hlt). lia. }
  destruct (trade_open st) eqn:Ho.
  - unfold tick. rewrite process_candle_open by (auto; lia).
    destruct (Hmanaged st Hc Ho) as (st2 & out & Heq & Hcl & Hrow).
    exists st2, out. auto.
  - destruct (tick_shape st k Hc) as [Hidle|(st1 & Hc1 & Ho1 & Hfrom & Heq)].
    + eexists _, _. split; [exact Hidle|]. split; [exact Ho|discriminate].
    + destruct (Hmanaged st1 Hc1 Ho1) as (st2 & out & Heq2 & Hcl & _).
      exists st2, out. rewrite Heq. split; [exact Heq2|].
      split; [exact Hcl|discriminate].
Qed.

Lemma closing_candle_closes_witness :
  exists st' out,
    tick open_long_state (sample_tick closing_bell) = Ok (st', out) /\
    trade_open st' = false /\
    (trade_open open_long_state = true -> exists row, out = [row]).
Proof.
  apply (closing_candle_closes open_long_state (sample_tick closing_bell)).
  - exact open_long_reachable.
  - reflexivity.
Defined.

(** ** Entries *)

(** X15. A candle that triggers an entry and reaches the long level
    opens a long, also when its low reaches the short level; the trade
    is entered at the close of the candle and at its timestamp, and a
    row emitted by the same candle is a long. *)
Theorem entry_prefers_long (times : Times) (ll sl : Q) (st : TradeState)
    (cd : Candle) :
  triggers_entry times ll sl st cd ->
  (ll <= c_High cd)%Q ->
  exists st' out,
    process_candle times ll sl st cd = Ok (st', out) /\
    entry_price st' = Some (c_Close cd) /\
    entry_time st' = Some (isoformat (c_ts cd)) /\
    (trade_open st' = true -> direction st' = Some "long"%string) /\
    (forall row, In row out -> r_direction row = "long"%string).
Proof.
  intros Htr Hl. rewrite (process_candle_entry times ll sl st cd Htr).
  unfold entry_state. apply Qgeb_true in Hl. rewrite Hl.
  rewrite (manage_long_eq times
             (open_trade st "long" (c_ts cd) (c_Close cd)
                (c_Close cd - TRAIL_DISTANCE_POINTS)%Q)
             cd (c_Close cd) (c_Close cd)
             (c_Close cd - TRAIL_DISTANCE_POINTS)%Q
             eq_refl eq_refl eq_refl eq_refl).
  cbn [mbind result_bind be_triggered open_trade]. cbv zeta.
  destruct (exit_check_long times (c_Close cd) _ cd) as [[p r]|];
    cbn [settle stamp fst snd]; eexists _, _; (split; [reflexivity|]);
    cbn; repeat split; try discriminate.
  - intros row [<-|[]]. reflexivity.
  - intros row [].
Qed.

Lemma entry_prefers_long_witness :
  exists st' out,
    process_candle sample_times 102 88 (fresh_state 0) outside_bar
      = Ok (st', out) /\
    entry_price st' = Some (c_Close outside_bar) /\
    entry_time st' = Some (isoformat (c_ts outside_bar)) /\
    (trade_open st' = true -> direction st' = Some "long"%string) /\
    (forall row, In row out -> r_direction row = "long"%string).
Proof.
  apply (entry_prefers_long sample_times 102 88 (fresh_state 0) outside_bar).
  - unfold triggers_entry. split; [reflexivity|]. split; [reflexivity|].
    split; [split; vm_compute; discriminate|].
    right. vm_compute. discriminate.
  - vm_compute. discriminate.
Defined.

Lemma manage_keeps_entry (times : Times) (st st2 : TradeState) (cd : Candle)
    (out : list TradeRow) :
  manage_open_trade times st cd = Ok (st2, out) ->
  entry_price st2 = entry_price st /\ entry_time st2 = entry_time st.
Proof.
  unfold manage_open_trade.
  destruct (entry_price st) as [e|] eqn:He; [|discriminate].
  cbn [as_float mbind result_bind].
  destruct (direction st) as [dir|]; [|intros [= <- <-]; auto].
  destruct (String.eqb dir "long").
  - destruct (watermark_price st) as [w|]; [|discriminate].
    destruct (stop_price st) as [s|]; [|discriminate].
    cbn [as_float mbind result_bind].
    destruct (exit_check_long _ _ _ _) as [[p r]|]; cbn [settle];
      intros [= <- <-]; cbn; auto.
  - destruct (String.eqb dir "short"); [|intros [= <- <-]; auto].
    destruct (watermark_price st) as [w|]; [|discriminate].
    destruct (stop_price st) as [s|]; [|discriminate].
    cbn [as_float mbind result_bind].
    destruct (exit_check_short _ _ _ _) as [[p r]|]; cbn [settle];
      intros [= <- <-]; cbn; auto.
Qed.

(** X16. From a reachable state, a candle makes an entry only when no
    trade has been executed yet, the candle lies inside the trade
    window and its high reaches the long level or its low the short
    level; a candle before the start of the window never opens a
    trade. *)
Theorem entry_only_when_triggered (st st' : TradeState) (k : Tick)
    (out : list TradeRow) :
  reachable st ->
  tick st k = Ok (st', out) ->
  entered st st' = true ->
  triggers_entry (k_times k) (k_long_level k) (k_short_level k) st (k_candle k) /\
  entry_price st' = Some (c_Close (k_candle k)) /\
  entry_time st' = Some (isoformat (c_ts (k_candle k))).
Proof.
  intros Hr Ht Hent. pose proof (reachable_consistent st Hr) as Hc.
  unfold entered in Hent. apply andb_true_iff in Hent as [Hne He'].
  apply negb_true_iff in Hne.
  destruct (tick_shape st k Hc) as [Hidle|(st1 & Hc1 & Ho1 & Hfrom & Heq)].
  - rewrite Hidle in Ht. injection Ht as <- <-. cbn in He'. congruence.
  - destruct Hfrom as [[-> _]|[Htr ->]].
    + pose proof (open_executed st Hc Ho1). congruence.
    + split; [exact Htr|].
      pose proof (process_candle_entry _ _ _ _ _ Htr) as Heq2.
      fold (tick st k) in Heq2. clear Heq. rewrite Ht in Heq2.
      destruct (manage_open_trade _ _ _) as [[st2 o2]|] eqn:Hm; [|discriminate].
      cbn [mbind result_bind stamp fst snd] in Heq2. injection Heq2 as -> ->.
      cbn [entry_price entry_time set_last_processed_ts].
      pose proof (manage_keeps_entry _ _ _ _ _ Hm) as Hkeep.
      destruct Hkeep as [-> ->]. unfold entry_state.
      destruct (Qgeb _ _); split; reflexivity.
Qed.

Lemma entry_only_when_triggered_witness :
  triggers_entry sample_times 102 88 (fresh_state 0) quiet_breakout /\
  entry_price open_long_state = Some (c_Close quiet_breakout) /\
  entry_time open_long_state = Some (isoformat (c_ts quiet_breakout)).
Proof.
  apply (entry_only_when_triggered (fresh_state 0) open_long_state
           (sample_tick quiet_breakout) []).
  - apply reach_fresh.
  - vm_compute. reflexivity.
  - reflexivity.
Defined.

(** ** Runs of [main] *)

Lemma trade_view_ok (st : TradeState) (today_df : list Candle) :
  consistent st -> exists tv, trade_view st today_df = Ok tv.
Proof.
  intros Hc. unfold trade_view. destruct (trade_open st) eqn:Ho; [|eauto].
  destruct (proj1 (executed_entry_price st Hc) (open_executed st Hc Ho))
    as [e He].
  rewrite He. cbn [as_float mbind result_bind]. eauto.
Qed.

Lemma load_state_consistent (now : datetime) (fs : Files) :
  store_consistent fs -> consistent (load_state now fs).
Proof.
  intros Hs. unfold load_state.
  destruct (state_files fs !! strftime_date now) as [st|] eqn:E.
  - exact (Hs _ _ E).
  - apply consistent_fresh.
Qed.

Lemma store_consistent_insert (fs : Files) (date : Z) (st : TradeState)
    (m : gmap Z TradeState) :
  store_consistent fs -> consistent st ->
  m = <[date := st]> (state_files fs) ->
  forall d s, m !! d = Some s -> consistent s.
Proof.
  intros Hs Hc -> d s. rewrite lookup_insert.
  destruct (decide (date = d)); [intros [= <-]; exact Hc|apply Hs].
Qed.

(** X17. A run that returns has written a snapshot whose status tells
    what it did: inactive on a weekend; error when the frame is empty,
    with state files, logs and summary untouched; pre_orb when no candle
    of today lies in the opening window, with the loaded state saved
    back and logs and summary untouched; active otherwise. *)
Theorem main_status (now : datetime) (df : list Candle) (fs fs' : Files) :
  main now df fs = Ok fs' ->
  exists p,
    latest_json fs' = Some p /\
    ((4 < weekday now /\ status_of p = "inactive"%string) \/
     (weekday now <= 4 /\ df = [] /\ status_of p = "error"%string /\
      state_files fs' = state_files fs /\ trade_logs fs' = trade_logs fs /\
      summary_csv fs' = summary_csv fs /\ summary_json fs' = summary_json fs) \/
     (weekday now <= 4 /\ df <> [] /\
      compute_opening_range
        (List.filter (fun cd => replace_time now 0 0 <=? c_ts cd) df)
        (t_open (session_times now)) (t_orb_end (session_times now)) = None /\
      status_of p = "pre_orb"%string /\
      state_files fs' = <[strftime_date now := load_state now fs]> (state_files fs) /\
      trade_logs fs' = trade_logs fs /\
      summary_csv fs' = summary_csv fs /\ summary_json fs' = summary_json fs) \/
     (weekday now <= 4 /\ df <> [] /\
      compute_opening_range
        (List.filter (fun cd => replace_time now 0 0 <=? c_ts cd) df)
        (t_open (session_times now)) (t_orb_end (session_times now)) <> None /\
      status_of p = "active"%string)).
Proof.
  unfold main.
  destruct (4 <? weekday now) eqn:Hw.
  { apply Z.ltb_lt in Hw. intros [= <-]. eexists. split; [reflexivity|].
    left. auto. }
  apply Z.ltb_ge in Hw.
  destruct df as [|cd0 df0].
  { intros [= <-]. eexists. split; [reflexivity|].
    right. left. repeat split; auto. }
  change (load_state now (ensure_dirs fs)) with (load_state now fs).
  destruct (compute_opening_range _ _ _) as [[hi lo]|] eqn:Horb.
  - destruct (process_candles _ _ _ _ _) as [[st1 out]|]; [|discriminate].
    cbn [mbind result_bind].
    destruct (trade_view st1 _) as [tv|]; [|discriminate].
    cbn [mbind result_bind]. intros [= <-].
    eexists. split; [reflexivity|].
    right. right. right. repeat split; auto; discriminate.
  - intros [= <-]. eexists. split; [reflexivity|].
    right. right. left.
    split; [exact Hw|]. split; [discriminate|]. split; [reflexivity|].
    repeat split.
Qed.

Lemma main_status_witness :
  exists p,
    latest_json monday_files = Some p /\
    ((4 < weekday monday_10h /\ status_of p = "inactive"%string) \/
     (weekday monday_10h <= 4 /\ monday_frame = [] /\
      status_of p = "error"%string /\
      state_files monday_files = state_files empty_files /\
      trade_logs monday_files = trade_logs empty_files /\
      summary_csv monday_files = summary_csv empty_files /\
      summary_json monday_files = summary_json empty_files) \/
     (weekday monday_10h <= 4 /\ monday_frame <> [] /\
      compute_opening_range
        (List.filter (fun cd => replace_time monday_10h 0 0 <=? c_ts cd)
           monday_frame)
        (t_open (session_times monday_10h))
        (t_orb_end (session_times monday_10h)) = None /\
      status_of p = "pre_orb"%string /\
      state_files monday_files
      = <[strftime_date monday_10h := load_state monday_10h empty_files]>
          (state_files empty_files) /\
      trade_logs monday_files = trade_logs empty_files /\
      summary_csv monday_files = summary_csv empty_files /\
      summary_json monday_files = summary_json empty_files) \/
     (weekday monday_10h <= 4 /\ monday_frame <> [] /\
      compute_opening_range
        (List.filter (fun cd => replace_time monday_10h 0 0 <=? c_ts cd)
           monday_frame)
        (t_open (session_times monday_10h))
        (t_orb_end (session_times monday_10h)) <> None /\
      status_of p = "active"%string)).
Proof.
  apply (main_status monday_10h monday_frame empty_files monday_files).
  vm_compute. reflexivity.
Defined.

(** X18. Call a state consistent when an open trade has been executed
    and has direction long or short, a trade that is not open has no
    direction, and the entry time, entry price, stop and watermark are
    set exactly when a trade has been executed.  When every state file
    holds a consistent state, a run never fails on a missing field,
    leaves every state file consistent, and adds at most one row to the
    log of the day. *)
Theorem main_keeps_store_consistent (now : datetime) (df : list Candle)
    (fs : Files) :
  store_consistent fs ->
  exists fs' out,
    main now df fs = Ok fs' /\
    store_consistent fs' /\
    (length out <= 1)%nat /\
    default [] (trade_logs fs' !! strftime_date now)
    = default [] (trade_logs fs !! strftime_date now) ++ out.
Proof.
  intros Hs. unfold main.
  destruct (4 <? weekday now).
  { eexists _, []. split; [reflexivity|]. split; [exact Hs|].
    split; [cbn; lia|]. rewrite app_nil_r. reflexivity. }
  destruct df as [|cd0 df0].
  { eexists _, []. split; [reflexivity|]. split; [exact Hs|].
    split; [cbn; lia|]. rewrite app_nil_r. reflexivity. }
  change (load_state now (ensure_dirs fs)) with (load_state now fs).
  pose proof (load_state_consistent now fs Hs) as Hc.
  destruct (compute_opening_range _ _ _) as [[hi lo]|].
  - rewrite process_candles_run.
    destruct (run_progress
                (ticks_of (session_times now) (hi + OFFSET_POINTS)%Q
                   (lo - OFFSET_POINTS)%Q
                   (select_candles (session_times now) (load_state now fs)
                      (List.filter (fun cd => replace_time now 0 0 <=? c_ts cd)
                         (cd0 :: df0))))
                (load_state now fs) Hc)
      as (st1 & out & Hrun & P).
    rewrite Hrun. cbn [mbind result_bind].
    destruct (trade_view_ok st1
                (List.filter (fun cd => replace_time now 0 0 <=? c_ts cd)
                   (cd0 :: df0)) (post_consistent _ _ _ P)) as [tv Htv].
    rewrite Htv. cbn [mbind result_bind].
    eexists _, out. split; [reflexivity|]. split; [|split].
    + intros d s. cbn [state_files write_intraday save_state write_latest].
      rewrite record_trades_keeps_states.
      apply (store_consistent_insert fs (strftime_date now) st1);
        [exact Hs|exact (post_consistent _ _ _ P)|reflexivity].
    + destruct (post_rows _ _ _ P) as [->|([row ->] & _)]; cbn; lia.
    + cbn [trade_logs write_intraday save_state write_latest].
      destruct out as [|row out'].
      * rewrite app_nil_r. reflexivity.
      * rewrite record_trades_log by discriminate. reflexivity.
  - eexists _, []. split; [reflexivity|]. split; [|split].
    + intros d s. cbn [state_files save_state write_latest ensure_dirs].
      apply (store_consistent_insert fs (strftime_date now) (load_state now fs));
        [exact Hs|exact Hc|reflexivity].
    + cbn. lia.
    + rewrite app_nil_r. reflexivity.
Qed.

Lemma monday_files_states :
  state_files monday_files = <[0 := open_long_state]> ∅.
Proof. vm_compute. reflexivity. Qed.

Lemma main_keeps_store_consistent_witness :
  state_files monday_files !! strftime_date (monday_10h + 60)
    = Some open_long_state /\
  exists fs' out,
    main (monday_10h + 60) (monday_frame ++ [rally]) monday_files = Ok fs' /\
    store_consistent fs' /\
    (length out <= 1)%nat /\
    default [] (trade_logs fs' !! strftime_date (monday_10h + 60))
    = default [] (trade_logs monday_files !! strftime_date (monday_10h + 60))
      ++ out.
Proof.
  split; [vm_compute; reflexivity|].
  apply (main_keeps_store_consistent (monday_10h + 60)
           (monday_frame ++ [rally]) monday_files).
  intros date st. rewrite monday_files_states, lookup_insert.
  destruct (decide (0 = date)); [|rewrite lookup_empty; discriminate].
  intros [= <-]. exact (reachable_consistent _ open_long_reachable).
Defined.

(** The second run of that Monday reads the open long from its state
    file, closes it on [rally] and logs the one row. *)
Example second_run_appends_one_row :
  exists fs' row,
    main (monday_10h + 60) (monday_frame ++ [rally]) monday_files = Ok fs' /\
    trade_logs monday_files !! 0 = None /\
    trade_logs fs' !! 0 = Some [row] /\
    r_exit_reason row = "TP"%string /\
    (trade_open <$> state_files fs' !! 0) = Some false.
Proof.
  eexists _, _. split; [vm_compute; reflexivity|]. repeat split.
Qed.

(** X19. A run touches the state file and the trade log of its own day
    only: those of every other day are as it found them. *)
Theorem main_other_days_untouched (now : datetime) (df : list Candle)
    (fs fs' : Files) (date : Z) :
  main now df fs = Ok fs' ->
  date <> strftime_date now ->
  state_files fs' !! date = state_files fs !! date /\
  trade_logs fs' !! date = trade_logs fs !! date.
Proof.
  intros Hmain Hne. revert Hmain. unfold main.
  destruct (4 <? weekday now); [intros [= <-]; split; reflexivity|].
  destruct df as [|cd0 df0]; [intros [= <-]; split; reflexivity|].
  destruct (compute_opening_range _ _ _) as [[hi lo]|].
  - destruct (process_candles _ _ _ _ _) as [[st1 out]|]; [|discriminate].
    cbn [mbind result_bind].
    destruct (trade_view st1 _) as [tv|]; [|discriminate].
    cbn [mbind result_bind]. intros [= <-].
    cbn [state_files trade_logs write_intraday save_state write_latest].
    rewrite record_trades_keeps_states.
    rewrite lookup_insert_ne by congruence.
    rewrite record_trades_other_logs by exact Hne.
    split; reflexivity.
  - intros [= <-].
    cbn [state_files trade_logs save_state write_latest ensure_dirs].
    rewrite lookup_insert_ne by congruence. split; reflexivity.
Qed.

Lemma main_other_days_untouched_witness :
  state_files monday_files !! 1 = state_files empty_files !! 1 /\
  trade_logs monday_files !! 1 = trade_logs empty_files !! 1.
Proof.
  apply (main_other_days_untouched monday_10h monday_frame empty_files
           monday_files 1).
  - vm_compute. reflexivity.
  - vm_compute. discriminate.
Defined.

(** ** Watermark and break-even flag over time *)

Lemma watermark_long_ge (h w : Q) : (w <= watermark_long h w)%Q.
Proof.
  unfold watermark_long. destruct (Qgtb h w) eqn:E; [|lra].
  apply Qgtb_true in E. lra.
Qed.

Lemma watermark_short_le (l w : Q) : (watermark_short l w <= w)%Q.
Proof.
  unfold watermark_short. destruct (Qltb l w) eqn:E; [|lra].
  apply Qltb_true in E. lra.
Qed.

Lemma flag_kept (fires be : bool) :
  be = true -> (if fires then true else be) = true.
Proof. intros ->. destruct fires; reflexivity. Qed.

(** One candle, from a consistent state in which an entry has happened:
    the watermark moves only in favour of the trade and a set flag stays
    set. *)
Lemma tick_excursion (st : TradeState) (k : Tick) (w : Q) :
  consistent st ->
  watermark_price st = Some w ->
  exists st' out w',
    tick st k = Ok (st', out) /\
    progress st st' out /\
    watermark_price st' = Some w' /\
    (direction st = Some "long"%string -> (w <= w')%Q) /\
    (direction st = Some "short"%string -> (w' <= w)%Q) /\
    (direction st = None -> w' = w) /\
    (be_triggered st = true -> be_triggered st' = true).
Proof.
  intros Hc Hw.
  assert (He : trade_executed st = true)
    by (apply (executed_watermark st Hc); eauto).
  destruct (tick_progress st k Hc) as (st' & out & Ht & P).
  exists st', out.
  destruct (tick_shape st k Hc) as [Hidle|(st1 & Hc1 & Ho1 & Hfrom & Heq)].
  - pose proof Ht as Ht0. rewrite Hidle in Ht. injection Ht as <- <-.
    exists w. split; [exact Ht0|]. split; [exact P|]. cbn.
    split; [exact Hw|]. split; [intros _; apply Qle_refl|].
    split; [intros _; apply Qle_refl|]. split; auto.
  - destruct Hfrom as [[-> _]|[(_ & Hne & _) _]]; [|congruence].
    destruct (manage_shape (k_times k) st (k_candle k) Hc Ho1)
      as (e & w0 & s & Hep & Hwp & Hsp & [[Hd Hm]|[Hd Hm]]);
      rewrite Hm in Heq; cbn [mbind result_bind] in Heq;
      pose proof Ht as Ht0;
      rewrite Heq in Ht; injection Ht as <- <-;
      assert (w0 = w) by congruence; subst w0.
    + exists (watermark_long (c_High (k_candle k)) w).
      split; [exact Ht0|]. split; [exact P|]. clear Ht0 P.
      match goal with
      | |- context [settle ?a ?dir ?e0 ?ts ?ex ?pnl] =>
        destruct (settle_cases a dir e0 ts ex pnl) as [[_ ->]|(p & r & _ & ->)]
      end; cbn [stamp fst snd watermark_price be_triggered set_trailing
                  close_trade set_last_processed_ts];
        (split; [reflexivity|]);
        (split; [intros _; apply watermark_long_ge|]);
        (split; [congruence|]); (split; [congruence|]); apply flag_kept.
    + exists (watermark_short (c_Low (k_candle k)) w).
      split; [exact Ht0|]. split; [exact P|]. clear Ht0 P.
      match goal with
      | |- context [settle ?a ?dir ?e0 ?ts ?ex ?pnl] =>
        destruct (settle_cases a dir e0 ts ex pnl) as [[_ ->]|(p & r & _ & ->)]
      end; cbn [stamp fst snd watermark_price be_triggered set_trailing
                  close_trade set_last_processed_ts];
        (split; [reflexivity|]);
        (split; [congruence|]);
        (split; [intros _; apply watermark_short_le|]);
        (split; [congruence|]); apply flag_kept.
Qed.

Lemma run_excursion (ticks : list Tick) (st : TradeState) (w : Q) :
  consistent st ->
  watermark_price st = Some w ->
  exists st' out w',
    run st ticks = Ok (st', out) /\
    watermark_price st' = Some w' /\
    (direction st = Some "long"%string -> (w <= w')%Q) /\
    (direction st = Some "short"%string -> (w' <= w)%Q) /\
    (direction st = None -> w' = w) /\
    (be_triggered st = true -> be_triggered st' = true).
Proof.
  revert st w. induction ticks as [|k rest IH]; intros st w Hc Hw.
  - exists st, [], w. split; [reflexivity|]. repeat split; auto using Qle_refl.
  - destruct (tick_excursion st k w Hc Hw)
      as (st1 & o1 & w1 & Ht & P & Hw1 & Hl1 & Hs1 & Hn1 & Hb1).
    destruct (IH st1 w1 (post_consistent _ _ _ P) Hw1)
      as (st2 & o2 & w2 & Hrun & Hw2 & Hl2 & Hs2 & Hn2 & Hb2).
    assert (He : trade_executed st = true)
      by (apply (executed_watermark st Hc); eauto).
    destruct (post_executed _ _ _ P He) as (_ & _ & _ & Hdir).
    exists st2, (o1 ++ o2), w2. split.
    { cbn [run]. rewrite Ht. cbn [mbind result_bind]. rewrite Hrun. reflexivity. }
    split; [exact Hw2|]. split; [|split; [|split]].
    + intros Hd. specialize (Hl1 Hd).
      destruct Hdir as [E|E].
      * rewrite <- E in Hd. specialize (Hl2 Hd). lra.
      * rewrite (Hn2 E). exact Hl1.
    + intros Hd. specialize (Hs1 Hd).
      destruct Hdir as [E|E].
      * rewrite <- E in Hd. specialize (Hs2 Hd). lra.
      * rewrite (Hn2 E). exact Hs1.
    + intros Hd. rewrite <- (Hn1 Hd). apply Hn2.
      destruct Hdir as [E|E]; congruence.
    + auto.
Qed.

(** X20. Over any sequence of candles from a reachable state, the
    watermark of a long never goes down and the watermark of a short
    never goes up; once the trade is closed the watermark stays where it
    was. *)
Theorem watermark_never_retreats (st : TradeState) (ticks : list Tick) (w : Q) :
  reachable st ->
  watermark_price st = Some w ->
  exists st' out w',
    run st ticks = Ok (st', out) /\
    watermark_price st' = Some w' /\
    (direction st = Some "long"%string -> (w <= w')%Q) /\
    (direction st = Some "short"%string -> (w' <= w)%Q) /\
    (direction st = None -> w' = w).
Proof.
  intros Hr Hw.
  destruct (run_excursion ticks st w (reachable_consistent st Hr) Hw)
    as (st' & out & w' & Hrun & Hw' & Hl & Hs & Hn & _).
  exists st', out, w'. auto.
Qed.

Lemma watermark_never_retreats_witness :
  exists st' out w',
    run open_long_state [sample_tick pullback] = Ok (st', out) /\
    watermark_price st' = Some w' /\
    (direction open_long_state = Some "long"%string -> (207 # 2 <= w')%Q) /\
    (direction open_long_state = Some "short"%string -> (w' <= 207 # 2)%Q) /\
    (direction open_long_state = None -> w' = (207 # 2)%Q).
Proof.
  apply (watermark_never_retreats open_long_state [sample_tick pullback]
           (207 # 2)).
  - exact open_long_reachable.
  - reflexivity.
Defined.

(** X21. The break-even flag is one-shot: once it is set for the trade
    of the session, no later candle clears it. *)
Theorem break_even_flag_stays (st : TradeState) (ticks : list Tick) :
  reachable st ->
  trade_executed st = true ->
  be_triggered st = true ->
  exists st' out,
    run st ticks = Ok (st', out) /\ be_triggered st' = true.
Proof.
  intros Hr He Hb. pose proof (reachable_consistent st Hr) as Hc.
  destruct (proj1 (executed_watermark st Hc) He) as [w Hw].
  destruct (run_excursion ticks st w Hc Hw)
    as (st' & out & w' & Hrun & _ & _ & _ & _ & Hflag).
  exists st', out. auto.
Qed.

Lemma break_even_flag_stays_witness :
  exists st' out,
    run (fst wide_breakout_exit) [sample_tick rally] = Ok (st', out) /\
    be_triggered st' = true.
Proof.
  apply (break_even_flag_stays (fst wide_breakout_exit) [sample_tick rally]).
  - apply (reach_tick (fresh_state 0) (fst wide_breakout_exit)
             (sample_tick wide_breakout) (snd wide_breakout_exit)).
    + apply reach_fresh.
    + vm_compute. reflexivity.
  - reflexivity.
  - reflexivity.
Defined.

(** ** The win rate *)

(** X22. When the rows of the file carry the win mark of their points,
    the win rate written with the summary is a fraction between 0 and
    1. *)
Theorem winrate_is_a_fraction (cur : option (list SummaryRow)) (row : TradeRow) :
  (forall rows, cur = Some rows -> Forall marked rows) ->
  exists q,
    winrate (summary_of (summary_frame cur row)) = Some q /\
    (0 <= q <= 1)%Q.
Proof.
  intros Hcur. unfold summary_of. cbn [winrate].
  pose proof (summary_frame_nonempty cur row) as Hlen.
  pose proof (summary_frame_marked cur row Hcur) as Hm.
  set (frame := summary_frame cur row) in *.
  assert (Hb : (0 <? length frame)%nat = true) by (apply Nat.ltb_lt; exact Hlen).
  rewrite Hb. eexists. split; [reflexivity|].
  rewrite (sum_of_wins frame Hm).
  assert (Hc : (count_positive frame <= length frame)%nat)
    by apply filter_length_le.
  assert (Hpos : (0 < inject_Z (Z.of_nat (length frame)))%Q).
  { change 0%Q with (inject_Z 0). rewrite <- Zlt_Qlt. lia. }
  split.
  - apply Qle_shift_div_l; [exact Hpos|].
    rewrite Qmult_0_l. change 0%Q with (inject_Z 0). rewrite <- Zle_Qle. lia.
  - apply Qle_shift_div_r; [exact Hpos|].
    rewrite Qmult_1_l. rewrite <- Zle_Qle. lia.
Qed.

Lemma winrate_is_a_fraction_witness :
  exists q,
    winrate (summary_of (summary_frame (Some [earlier_summary_row]) scratch_trade))
    = Some q /\
    (0 <= q <= 1)%Q.
Proof.
  apply (winrate_is_a_fraction (Some [earlier_summary_row]) scratch_trade).
  intros rows [= <-]. constructor; [reflexivity|constructor].
Defined.
